(** * The cron schedule interpreter of docker-crontab's web application

    A shallow embedding of [src/webapp/cron_parser.py] (class [CronParser]):
    [parse_schedule] (the specification's [describe]) and
    [calculate_next_run] (the specification's [nextRun]), together with the
    part of the Python runtime the two methods rely on: [str.strip],
    [str.split], [str.startswith], [str.isdigit], [str.zfill], [int], the one
    regular expression of the module, and [datetime] / [timedelta]
    arithmetic.

    Conventions of the model.
    - A Python [str] is a Rocq [string]; every [ascii] is read as the code
      point of that number, so the strings covered are those over U+0000 to
      U+00FF.  The character classes below are the Unicode ones restricted to
      that range (U+0085 and U+00A0 are white space, U+00B2, U+00B3 and
      U+00B9 are digits for [str.isdigit] but not for [int]).
    - A Python [int] is a [Z].  The interpreter's limit on decimal
      conversions is at its default: [int] refuses a literal of more than
      4300 digits.
    - A raised exception is a value [Raise e] of the type [result]; the
      statements of a method are sequenced with the bind of that type.
    - A [datetime] is its proleptic Gregorian ordinal (what [toordinal]
      returns, 1 for 0001-01-01 and 3652059 for 9999-12-31) and its four
      time-of-day fields; [tzinfo] and [fold] play no part in the code.
      The default [from_time=None], which reads the clock, is the caller
      passing the current time.

    Besides the parser the file embeds the pure helpers of the other
    modules: [truncate_output] of [db_logger.py], and [validate_job_name],
    the clamp of the [limit] parameter and the script path of [app.py].
    The functions that talk to SQLite, to the file system or to processes
    are left out. *)

From Stdlib Require Import String Ascii List ZArith NArith Bool Lia.
Import ListNotations.

Local Open Scope string_scope.
Local Open Scope Z_scope.

(* ================================================================== *)
(** ** Exceptions *)

Inductive exn : Type :=
| ValueError
| OverflowError.

Inductive result (A : Type) : Type :=
| Ok (a : A)
| Raise (e : exn).

Arguments Ok {A} a.
Arguments Raise {A} e.

Definition bind {A B : Type} (r : result A) (k : A -> result B) : result B :=
  match r with
  | Ok a => k a
  | Raise e => Raise e
  end.

Notation "x <- r ;; k" := (bind r (fun x => k))
  (at level 61, r at next level, right associativity).

Definition returns {A : Type} (r : result A) : Prop :=
  exists a, r = Ok a.

(* ================================================================== *)
(** ** Characters *)

Definition code (c : ascii) : N := N_of_ascii c.

Definition between (lo hi n : N) : bool := ((lo <=? n) && (n <=? hi))%N.

(** [str.isspace] on one character, which is also what [str.strip],
    [str.split] and the class [\s] of [re] use. *)
Definition isspace (c : ascii) : bool :=
  let n := code c in
  between 9 13 n || between 28 32 n || (n =? 133)%N || (n =? 160)%N.

(** Unicode category Nd: the class [\d] of [re], and the digits of [int]. *)
Definition isdecimal (c : ascii) : bool := between 48 57 (code c).

(** [str.isdigit] on one character: the decimal digits and the superscripts
    two, three and one. *)
Definition isdigit_char (c : ascii) : bool :=
  let n := code c in
  isdecimal c || (n =? 178)%N || (n =? 179)%N || (n =? 185)%N.

Definition digit_value (c : ascii) : Z := Z.of_N (code c) - 48.

Definition digit_char (d : N) : ascii := ascii_of_N (48 + d).

(* ================================================================== *)
(** ** Strings *)

Fixpoint forall_chars (p : ascii -> bool) (s : string) : bool :=
  match s with
  | EmptyString => true
  | String c s' => p c && forall_chars p s'
  end.

Definition is_empty (s : string) : bool :=
  match s with
  | EmptyString => true
  | String _ _ => false
  end.

(** [s.isdigit()]: at least one character, and all of them digits. *)
Definition isdigit (s : string) : bool :=
  negb (is_empty s) && forall_chars isdigit_char s.

(** [s.startswith(p)]. *)
Fixpoint startswith (s p : string) {struct p} : bool :=
  match p, s with
  | EmptyString, _ => true
  | String a p', String b s' => Ascii.eqb a b && startswith s' p'
  | String _ _, EmptyString => false
  end.

(** [s[n:]]. *)
Fixpoint slice_from (n : nat) (s : string) : string :=
  match n, s with
  | O, _ => s
  | S n', String _ s' => slice_from n' s'
  | S _, EmptyString => EmptyString
  end.

Fixpoint lstrip (s : string) : string :=
  match s with
  | EmptyString => EmptyString
  | String c s' => if isspace c then lstrip s' else s
  end.

Fixpoint rstrip (s : string) : string :=
  match s with
  | EmptyString => EmptyString
  | String c s' =>
      let r := rstrip s' in
      if is_empty r && isspace c then EmptyString else String c r
  end.

(** [s.strip()]. *)
Definition strip (s : string) : string := rstrip (lstrip s).

(** [s.split()]: one scan from the left, [w] being the field read so far. *)
Fixpoint split_scan (w : string) (s : string) : list string :=
  match s with
  | EmptyString => if is_empty w then [] else [w]
  | String c s' =>
      if isspace c
      then (if is_empty w then split_scan "" s' else w :: split_scan "" s')
      else split_scan (w ++ String c "") s'
  end.

Definition split (s : string) : list string := split_scan "" s.

(** [s.zfill(width)]: zeros on the left, after a leading sign. *)
Definition zfill (width : nat) (s : string) : string :=
  let pad := String.concat "" (repeat "0" (width - String.length s)) in
  match s with
  | String c s' =>
      if (Ascii.eqb c "+" || Ascii.eqb c "-")%char
      then String c (pad ++ s')
      else pad ++ s
  | EmptyString => pad
  end.

(* ================================================================== *)
(** ** Integers and their decimal form *)

(** White space for [int]: the string is first brought to ASCII (a
    non-ASCII space becomes a blank), then scanned with the C locale's
    [isspace], which does not know U+001C to U+001F. *)
Definition int_isspace (c : ascii) : bool :=
  let n := code c in
  between 9 13 n || (n =? 32)%N || (n =? 133)%N || (n =? 160)%N.

(** The digits of a literal after its first one: a digit, or one
    underscore with a digit behind it. Returns the value and what is left. *)
Fixpoint int_digits (acc : Z) (s : string) : Z * string :=
  match s with
  | EmptyString => (acc, s)
  | String c s' =>
      if isdecimal c then int_digits (acc * 10 + digit_value c) s'
      else if Ascii.eqb c "_" then
        match s' with
        | String d s'' =>
            if isdecimal d then int_digits (acc * 10 + digit_value d) s''
            else (acc, s)
        | EmptyString => (acc, s)
        end
      else (acc, s)
  end.

Fixpoint skip (p : ascii -> bool) (s : string) : string :=
  match s with
  | EmptyString => EmptyString
  | String c s' => if p c then skip p s' else s
  end.

(** The default of [sys.get_int_max_str_digits()]. *)
Definition INT_MAX_STR_DIGITS : nat := 4300.

(** The decimal digits in [s]. In a string that [int] can read they are
    the digits of the literal, leading zeros included: the rest of such a
    string is white space, a sign and underscores. *)
Fixpoint digit_count (s : string) : nat :=
  match s with
  | EmptyString => O
  | String c r => ((if isdecimal c then 1 else 0) + digit_count r)%nat
  end.

(** [int(s)] in base ten. A literal of more than [INT_MAX_STR_DIGITS]
    digits is refused with [ValueError], as a malformed one is. *)
Definition int (s : string) : result Z :=
  let s1 := skip int_isspace s in
  let '(sign, s2) :=
    match s1 with
    | String c r =>
        if Ascii.eqb c "+" then (1, r)
        else if Ascii.eqb c "-" then (-1, r)
        else (1, s1)
    | EmptyString => (1, s1)
    end in
  match s2 with
  | String c r =>
      if isdecimal c then
        let '(v, rest) := int_digits (digit_value c) r in
        if forall_chars int_isspace rest then
          if (digit_count s <=? INT_MAX_STR_DIGITS)%nat then Ok (sign * v)
          else Raise ValueError
        else Raise ValueError
      else Raise ValueError
  | EmptyString => Raise ValueError
  end.

(** The number a string of decimal digits denotes, read after [acc]. *)
Fixpoint digits_value (acc : Z) (ds : string) : Z :=
  match ds with
  | EmptyString => acc
  | String c r => digits_value (acc * 10 + digit_value c) r
  end.

Definition decimal_value (ds : string) : Z := digits_value 0 ds.

(** A literal integer of the schedule syntax: decimal digits, at least one. *)
Definition is_literal (ds : string) : bool :=
  negb (is_empty ds) && forall_chars isdecimal ds.

(** A string short enough to be a literal [int] accepts: of at most
    [INT_MAX_STR_DIGITS] characters. *)
Definition fits_int (ds : string) : bool :=
  (String.length ds <=? INT_MAX_STR_DIGITS)%nat.

(** The decimal digits of [n], most significant first, in front of [acc]. *)
Fixpoint decimal_aux (fuel : nat) (n : N) (acc : string) : string :=
  match fuel with
  | O => acc
  | S f =>
      let acc' := String (digit_char (n mod 10)) acc in
      if (n <? 10)%N then acc' else decimal_aux f (n / 10)%N acc'
  end.

Definition decimal (n : N) : string :=
  decimal_aux (S (N.to_nat (N.log2 n))) n "".

(** [str(z)], which is also how an f-string renders an [int]. The code
    prints what [int] returned and lengths of strings only: numbers of at
    most [INT_MAX_STR_DIGITS] digits, which the limit on decimal
    conversions lets through. *)
Definition str_of_int (z : Z) : string :=
  if z <? 0 then String "-" (decimal (Z.abs_N z)) else decimal (Z.abs_N z).

(* ================================================================== *)
(** ** The regular expression [@every\s+(\d+)([mhd])]

    The three classes that follow the literal are pairwise disjoint, so a
    greedy run of [\s] ends at the first character outside it and a greedy
    run of [\d] likewise: giving characters back can never help, and the
    matcher below does what the backtracking one does.  [every_token]
    further down is the language of the expression, and
    [match_every_token] relates the two. *)

(** The longest prefix of [s] in the class [p], and what follows it. *)
Fixpoint span (p : ascii -> bool) (s : string) : string * string :=
  match s with
  | EmptyString => (EmptyString, EmptyString)
  | String c s' =>
      if p c then let '(a, b) := span p s' in (String c a, b)
      else (EmptyString, s)
  end.

(** The head of a string fails [p], or there is no head. *)
Definition stops (p : ascii -> bool) (s : string) : Prop :=
  match s with
  | EmptyString => True
  | String c _ => p c = false
  end.

(** [s] without its prefix [p], when it has it. *)
Fixpoint strip_prefix (p s : string) : option string :=
  match p, s with
  | EmptyString, _ => Some s
  | String a p', String b s' =>
      if Ascii.eqb a b then strip_prefix p' s' else None
  | String _ _, EmptyString => None
  end.

Definition is_unit (c : ascii) : bool :=
  (Ascii.eqb c "m" || Ascii.eqb c "h" || Ascii.eqb c "d")%char.

(** A match that starts at the first character of [s]: its groups 1 and 2. *)
Definition match_every (s : string) : option (string * string) :=
  match strip_prefix "@every" s with
  | None => None
  | Some r =>
      let '(ws, r1) := span isspace r in
      if is_empty ws then None
      else
        let '(ds, r2) := span isdecimal r1 in
        if is_empty ds then None
        else
          match r2 with
          | String u _ => if is_unit u then Some (ds, String u "") else None
          | EmptyString => None
          end
  end.

(** [re.search]: the match at the leftmost position that has one. *)
Fixpoint re_search_every (s : string) : option (string * string) :=
  match match_every s with
  | Some g => Some g
  | None =>
      match s with
      | EmptyString => None
      | String _ s' => re_search_every s'
      end
  end.

(** The words of the expression, with the text captured by each group:
    [t] is [@every], white space [ws], digits [ds] and one unit letter [u]. *)
Definition every_token (t ds : string) (u : ascii) : Prop :=
  exists ws,
    t = "@every" ++ ws ++ ds ++ String u "" /\
    is_empty ws = false /\ forall_chars isspace ws = true /\
    is_empty ds = false /\ forall_chars isdecimal ds = true /\
    is_unit u = true.

(** [s] has a token at offset [String.length pre]. *)
Definition token_at (s pre ds : string) (u : ascii) : Prop :=
  exists t post, s = pre ++ t ++ post /\ every_token t ds u.

Definition has_token (s : string) : Prop :=
  exists pre ds u, token_at s pre ds u.

(** The token of [s] that starts first. *)
Definition first_token (s ds : string) (u : ascii) : Prop :=
  exists pre,
    token_at s pre ds u /\
    forall pre' ds' u',
      token_at s pre' ds' u' -> (String.length pre <= String.length pre')%nat.

(* ================================================================== *)
(** ** [datetime] and [timedelta] *)

Record datetime : Type := mkdatetime {
  ordinal : Z;        (* toordinal(): the calendar day *)
  hour : Z;
  minute : Z;
  second : Z;
  microsecond : Z
}.

Definition MAXORDINAL : Z := 3652059.

Definition in_range (lo hi x : Z) : bool := (lo <=? x) && (x <=? hi).

(** What the constructor of [datetime] accepts. *)
Definition datetime_ok (t : datetime) : bool :=
  in_range 1 MAXORDINAL (ordinal t) && in_range 0 23 (hour t) &&
  in_range 0 59 (minute t) && in_range 0 59 (second t) &&
  in_range 0 999999 (microsecond t).

Definition is_leap (year : Z) : bool :=
  (year mod 4 =? 0) && (negb (year mod 100 =? 0) || (year mod 400 =? 0)).

Definition days_before_year (year : Z) : Z :=
  let y := year - 1 in y * 365 + y / 4 - y / 100 + y / 400.

Definition days_before_month (year month : Z) : Z :=
  nth (Z.to_nat month) [0; 0; 31; 59; 90; 120; 151; 181; 212; 243; 273; 304; 334] 0
  + (if (2 <? month) && is_leap year then 1 else 0).

Definition ymd2ord (year month day : Z) : Z :=
  days_before_year year + days_before_month year month + day.

(** [datetime(year, month, day, hour, minute, second)] for a valid date. *)
Definition datetime_of (year month day h m s : Z) : datetime :=
  mkdatetime (ymd2ord year month day) h m s 0.

Record timedelta : Type := mktimedelta {
  td_days : Z;
  td_seconds : Z;
  td_microseconds : Z
}.

Definition MAX_DELTA_DAYS : Z := 999999999.

(** [timedelta(days=d, hours=h, minutes=m)] on integers: the normal form
    has its seconds in [0, 86400), and the days are bounded. *)
Definition mk_timedelta (d h m : Z) : result timedelta :=
  let s := h * 3600 + m * 60 in
  let d' := d + s / 86400 in
  if Z.abs d' <=? MAX_DELTA_DAYS
  then Ok (mktimedelta d' (s mod 86400) 0)
  else Raise OverflowError.

Definition timedelta_minutes (m : Z) : result timedelta := mk_timedelta 0 0 m.
Definition timedelta_hours (h : Z) : result timedelta := mk_timedelta 0 h 0.
Definition timedelta_days (d : Z) : result timedelta := mk_timedelta d 0 0.

(** [t + d]: the fields are added and the carries propagated from the
    microseconds up; a day outside 1..MAXORDINAL is an [OverflowError]. *)
Definition datetime_add (t : datetime) (d : timedelta) : result datetime :=
  let us := microsecond t + td_microseconds d in
  let s := second t + td_seconds d + us / 1000000 in
  let m := minute t + s / 60 in
  let h := hour t + m / 60 in
  let o := ordinal t + td_days d + h / 24 in
  if in_range 1 MAXORDINAL o
  then Ok (mkdatetime o (h mod 24) (m mod 60) (s mod 60) (us mod 1000000))
  else Raise OverflowError.

Definition default (o : option Z) (x : Z) : Z :=
  match o with
  | Some v => v
  | None => x
  end.

(** An argument that is given fits a C [int]. *)
Definition c_int (o : option Z) : bool :=
  match o with
  | Some v => in_range (-2147483648) 2147483647 v
  | None => true
  end.

(** [t.replace(hour=.., minute=.., second=.., microsecond=..)], each of the
    arguments optional. The arguments are first converted to C [int], an
    [OverflowError] when one does not fit; the new fields then go through
    the constructor's checks, a [ValueError] when one is out of range. *)
Definition replace (t : datetime) (h m s us : option Z) : result datetime :=
  if c_int h && c_int m && c_int s && c_int us then
    let t' := mkdatetime (ordinal t) (default h (hour t))
                         (default m (minute t)) (default s (second t))
                         (default us (microsecond t)) in
    if datetime_ok t' then Ok t' else Raise ValueError
  else Raise OverflowError.

(** The instant of [t] in microseconds, counted from the start of the day
    of ordinal 0: the order of [datetime] is the order of these numbers. *)
Definition to_microseconds (t : datetime) : Z :=
  (((ordinal t * 24 + hour t) * 60 + minute t) * 60 + second t) * 1000000
  + microsecond t.

(** [a <= b], the comparison of the field tuples. *)
Definition datetime_le (a b : datetime) : bool :=
  if ordinal a =? ordinal b then
    if hour a =? hour b then
      if minute a =? minute b then
        if second a =? second b then microsecond a <=? microsecond b
        else second a <? second b
      else minute a <? minute b
    else hour a <? hour b
  else ordinal a <? ordinal b.

(** The length of a [timedelta] in microseconds. *)
Definition td_total (d : timedelta) : Z :=
  (td_days d * 86400 + td_seconds d) * 1000000 + td_microseconds d.

(** The first instant after [datetime.max], on the scale of
    [to_microseconds]. *)
Definition datetime_end : Z := (MAXORDINAL + 1) * 86400000000.

(* ================================================================== *)
(** ** [class CronParser] *)

Local Open Scope string_scope.

(** The dictionary [SHORTCUTS]. *)
Definition SHORTCUTS : list (string * string) :=
  [ ("@yearly",   "0 0 1 1 *");
    ("@annually", "0 0 1 1 *");
    ("@monthly",  "0 0 1 * *");
    ("@weekly",   "0 0 * * 0");
    ("@daily",    "0 0 * * *");
    ("@midnight", "0 0 * * *");
    ("@hourly",   "0 * * * *") ].

(** [d[k]] when [k in d]. *)
Fixpoint lookup (k : string) (d : list (string * string)) : option string :=
  match d with
  | [] => None
  | (k', v) :: d' => if String.eqb k k' then Some v else lookup k d'
  end.

(** The plural ending of the f-strings: ['s' if n != 1 else '']. *)
Definition plural (n : Z) : string := if (n =? 1)%Z then "" else "s".

Definition _parse_every (schedule_str : string) : result string :=
  match re_search_every schedule_str with
  | Some (g1, unit) =>
      value <- int g1 ;;
      if unit =? "m" then
        Ok ("Every " ++ str_of_int value ++ " minute" ++ plural value)
      else if unit =? "h" then
        Ok ("Every " ++ str_of_int value ++ " hour" ++ plural value)
      else if unit =? "d" then
        Ok ("Every " ++ str_of_int value ++ " day" ++ plural value)
      else Ok "Invalid @every syntax"
  | None => Ok "Invalid @every syntax"
  end.

Definition _describe_standard_cron (schedule_str : string) : result string :=
  match split schedule_str with
  | [minute; hour; day; month; weekday] =>
      if (minute =? "*") && (hour =? "*") then Ok "Every minute"
      else if startswith minute "*/" then
        let interval := slice_from 2 minute in
        n <- int interval ;;
        Ok ("Every " ++ interval ++ " minute" ++ plural n)
      else if startswith hour "*/" && (minute =? "0") then
        let interval := slice_from 2 hour in
        n <- int interval ;;
        Ok ("Every " ++ interval ++ " hour" ++ plural n)
      else if startswith day "*/" && (minute =? "0") && (hour =? "0") then
        let interval := slice_from 2 day in
        n <- int interval ;;
        Ok ("Every " ++ interval ++ " day" ++ plural n)
      else if negb (minute =? "*") && negb (hour =? "*") && (day =? "*")
              && (month =? "*") && (weekday =? "*") then
        Ok ("Daily at " ++ zfill 2 hour ++ ":" ++ zfill 2 minute)
      else if negb (minute =? "*") && negb (hour =? "*") && negb (day =? "*")
              && (month =? "*") && (weekday =? "*") then
        Ok ("Monthly on day " ++ day ++ " at " ++ zfill 2 hour ++ ":" ++ zfill 2 minute)
      else Ok ("Cron: " ++ schedule_str)
  | _ => Ok ("Invalid cron syntax: " ++ schedule_str)
  end.

Definition parse_schedule (schedule_str : string) : result string :=
  let schedule_str := strip schedule_str in
  match lookup schedule_str SHORTCUTS with
  | Some cron => _describe_standard_cron cron
  | None =>
      if startswith schedule_str "@every" then _parse_every schedule_str
      else if startswith schedule_str "@random" then
        Ok "Random (varies per container start)"
      else _describe_standard_cron schedule_str
  end.

(** The first [if] of [calculate_next_run]: [Some r] when it returns [r]
    (or raises), [None] when control falls through to the shortcuts. *)
Definition next_run_every (schedule_str : string) (from_time : datetime)
  : option (result datetime) :=
  if startswith schedule_str "@every" then
    match re_search_every schedule_str with
    | Some (g1, unit) =>
        match int g1 with
        | Raise e => Some (Raise e)
        | Ok value =>
            if unit =? "m" then
              Some (d <- timedelta_minutes value ;; datetime_add from_time d)
            else if unit =? "h" then
              Some (d <- timedelta_hours value ;; datetime_add from_time d)
            else if unit =? "d" then
              Some (d <- timedelta_days value ;; datetime_add from_time d)
            else None
        end
    | None => None
    end
  else None.

(** The fallback: [from_time + timedelta(hours=1)]. *)
Definition fallback (from_time : datetime) : result datetime :=
  d <- timedelta_hours 1 ;; datetime_add from_time d.

(** The rest of [calculate_next_run], on the string after the shortcut
    substitution. *)
Definition next_run_cron (schedule_str : string) (from_time : datetime)
  : result datetime :=
  match split schedule_str with
  | [minute; hour; day; month; weekday] =>
      if startswith minute "*/" then
        interval <- int (slice_from 2 minute) ;;
        d <- timedelta_minutes interval ;;
        next_run <- datetime_add from_time d ;;
        replace next_run None None (Some 0) (Some 0)
      else if startswith hour "*/" && isdigit minute then
        interval <- int (slice_from 2 hour) ;;
        d <- timedelta_hours interval ;;
        next_run <- datetime_add from_time d ;;
        m <- int minute ;;
        replace next_run None (Some m) (Some 0) (Some 0)
      else if isdigit minute && isdigit hour then
        target_hour <- int hour ;;
        target_minute <- int minute ;;
        next_run <- replace from_time (Some target_hour) (Some target_minute)
                            (Some 0) (Some 0) ;;
        if datetime_le next_run from_time then
          d <- timedelta_days 1 ;; datetime_add next_run d
        else Ok next_run
      else fallback from_time
  | _ => fallback from_time
  end.

Definition calculate_next_run (schedule_str : string) (from_time : datetime)
  : result datetime :=
  match next_run_every schedule_str from_time with
  | Some r => r
  | None =>
      let schedule_str :=
        match lookup schedule_str SHORTCUTS with
        | Some cron => cron
        | None => schedule_str
        end in
      next_run_cron schedule_str from_time
  end.

(* ================================================================== *)
(** ** Vocabulary of the statements *)

(** [timedelta(minutes=n)], [timedelta(hours=n)] or [timedelta(days=n)],
    by the unit letter. *)
Definition unit_timedelta (u : ascii) (n : Z) : result timedelta :=
  if Ascii.eqb u "m" then timedelta_minutes n
  else if Ascii.eqb u "h" then timedelta_hours n
  else timedelta_days n.


(** The English word of a unit letter. *)
Definition unit_word (u : ascii) : string :=
  if Ascii.eqb u "m" then "minute"
  else if Ascii.eqb u "h" then "hour"
  else "day".

(** A field that is a literal value: not the wildcard [*], not a step
    [*/N], and not the start of one of the [@] forms. Literal integers are
    such fields, and so are lists and ranges. *)
Definition is_concrete (f : string) : bool :=
  negb (f =? "*") && negb (startswith f "*/") && negb (startswith f "@").

(** The three shapes of a five-field schedule that [calculate_next_run]
    models: a step in the minutes, a step in the hours with the minutes
    digits, and both the minutes and the hours digits. *)
Definition shape_modelled (minute hour : string) : bool :=
  startswith minute "*/" || (startswith hour "*/" && isdigit minute)
  || (isdigit minute && isdigit hour).

(** The fields of [s] are not five, or they have none of the shapes. *)
Definition unmodelled (s : string) : Prop :=
  match split s with
  | [minute; hour; _; _; _] => shape_modelled minute hour = false
  | _ => True
  end.

(* ================================================================== *)
(** ** [db_logger.py]: the preview of a job's output *)

(** [len(s)]. *)
Definition len (s : string) : Z := Z.of_nat (String.length s).

(** The first [n] characters of [s], or all of [s] when it has fewer. *)
Fixpoint take (n : nat) (s : string) : string :=
  match n, s with
  | O, _ => EmptyString
  | S _, EmptyString => EmptyString
  | S n', String c s' => String c (take n' s')
  end.

(** [s[:k]]: a negative [k] counts from the end, and the bound is clamped
    to the string. *)
Definition slice_to (k : Z) (s : string) : string :=
  if (k <? 0)%Z then take (Z.to_nat (len s + k)) s else take (Z.to_nat k) s.

Definition newline : ascii := "010"%char.

Definition MAX_PREVIEW_SIZE : Z := (10 * 1024)%Z.

(** The text [truncate_output] puts after a cut, for a content of [n]
    characters. *)
Definition truncation_notice (n : Z) : string :=
  String newline "... (truncated, " ++ str_of_int n ++ " bytes total)".

Definition truncate_output (content : string) (max_size : Z) : string :=
  if (max_size <? len content)%Z
  then slice_to max_size content ++ truncation_notice (len content)
  else content.

(* ================================================================== *)
(** ** [app.py]: what the routes check before they query *)

(** The class [[a-zA-Z0-9_-]]. *)
Definition is_name_char (c : ascii) : bool :=
  let n := code c in
  between 97 122 n || between 65 90 n || between 48 57 n
  || (n =? 95)%N || (n =? 45)%N.

(** [re.match(r'^[a-zA-Z0-9_-]+$', s)]: the longest run of the class from
    the start, at least one character, and then [$], which holds at the end
    of the string and also in front of a newline that ends the string. The
    newline is outside the class, so a shorter run never reaches a place
    where [$] holds. *)
Definition match_job_name (s : string) : bool :=
  let '(run, rest) := span is_name_char s in
  negb (is_empty run) && (is_empty rest || (rest =? String newline "")).

Definition validate_job_name (job_name : string) : result string :=
  if match_job_name job_name then Ok job_name else Raise ValueError.

(** [request.args.get(key, default, type=int)] on the value of the key, if
    the query has one: the default when the key is missing and when [int]
    raises [ValueError]. *)
Definition args_get_int (value : option string) (default : Z) : Z :=
  match value with
  | None => default
  | Some v =>
      match int v with
      | Ok n => n
      | Raise _ => default
      end
  end.

(** The limit [api_get_executions] passes to the query, from the [limit]
    parameter of the request. *)
Definition executions_limit (value : option string) : Z :=
  let limit := args_get_int value 50 in
  Z.min (Z.max limit 1) 1000.

(** The path of the script [api_trigger_job] runs for a job. *)
Definition script_path (job_name : string) : string :=
  "/opt/crontab/jobs/" ++ job_name ++ ".sh".

(** A property of one character, by running through the characters. *)
Ltac char_cases c :=
  destruct c as [[] [] [] [] [] [] [] []]; vm_compute;
  intros; first [reflexivity | discriminate | congruence].

(* ================================================================== *)
(** * Properties *)

Local Open Scope Z_scope.

(** ** Characters *)

Lemma decimal_not_space (c : ascii) :
  isdecimal c = true -> isspace c = false.
Proof. char_cases c. Qed.

Lemma decimal_not_int_space (c : ascii) :
  isdecimal c = true -> int_isspace c = false.
Proof. char_cases c. Qed.

Lemma decimal_is_digit (c : ascii) :
  isdecimal c = true -> isdigit_char c = true.
Proof. char_cases c. Qed.

Lemma unit_not_decimal (c : ascii) :
  is_unit c = true -> isdecimal c = false.
Proof. char_cases c. Qed.

Lemma decimal_neq (c d : ascii) :
  isdecimal c = true -> isdecimal d = false -> Ascii.eqb c d = false.
Proof.
  intros Hc Hd. destruct (Ascii.eqb_spec c d) as [->|]; congruence.
Qed.

Lemma digit_char_spec (d : N) :
  (d < 10)%N ->
  isdecimal (digit_char d) = true /\ digit_value (digit_char d) = Z.of_N d.
Proof.
  intros H.
  assert (Hd : (d = 0 \/ d = 1 \/ d = 2 \/ d = 3 \/ d = 4 \/ d = 5 \/ d = 6
                \/ d = 7 \/ d = 8 \/ d = 9)%N) by lia.
  repeat (destruct Hd as [-> | Hd]; [split; reflexivity|]).
  subst d. split; reflexivity.
Qed.

(** ** Strings *)

Lemma app_nil_r (s : string) : s ++ "" = s.
Proof. induction s as [|c s IH]; simpl; congruence. Qed.

Lemma app_assoc (a b c : string) : (a ++ b) ++ c = a ++ b ++ c.
Proof. induction a as [|x a IH]; simpl; congruence. Qed.

Lemma length_app (a b : string) :
  String.length (a ++ b) = (String.length a + String.length b)%nat.
Proof. induction a as [|x a IH]; simpl; congruence. Qed.

Lemma forall_chars_app (p : ascii -> bool) (a b : string) :
  forall_chars p (a ++ b) = forall_chars p a && forall_chars p b.
Proof.
  induction a as [|x a IH]; simpl; [reflexivity|].
  rewrite IH. apply andb_assoc.
Qed.

Lemma is_empty_app (a b : string) :
  is_empty (a ++ b) = is_empty a && is_empty b.
Proof. destruct a; reflexivity. Qed.

Lemma is_empty_true (s : string) : is_empty s = true -> s = "".
Proof. destruct s; [reflexivity | discriminate]. Qed.

Lemma strip_prefix_app (p r : string) : strip_prefix p (p ++ r) = Some r.
Proof.
  induction p as [|a p IH]; simpl; [reflexivity|].
  rewrite Ascii.eqb_refl. exact IH.
Qed.

Lemma strip_prefix_some (p s r : string) :
  strip_prefix p s = Some r -> s = p ++ r.
Proof.
  revert s. induction p as [|a p IH]; intros s H; simpl in *.
  - congruence.
  - destruct s as [|b s]; [discriminate|].
    destruct (Ascii.eqb_spec a b) as [->|]; [|discriminate].
    rewrite (IH _ H). reflexivity.
Qed.

Lemma startswith_app (p r : string) : startswith (p ++ r) p = true.
Proof.
  induction p as [|a p IH]; simpl; [reflexivity|].
  rewrite Ascii.eqb_refl. exact IH.
Qed.

Lemma startswith_inv (s p : string) :
  startswith s p = true -> exists r, s = p ++ r.
Proof.
  revert s. induction p as [|a p IH]; intros s H.
  - exists s. reflexivity.
  - destruct s as [|b s]; simpl in H; [discriminate|].
    destruct (Ascii.eqb_spec a b) as [->|]; [|discriminate].
    destruct (IH _ H) as [r ->]. exists r. reflexivity.
Qed.

Lemma span_spec (p : ascii -> bool) (s a b : string) :
  span p s = (a, b) ->
  s = a ++ b /\ forall_chars p a = true /\ stops p b.
Proof.
  revert a b. induction s as [|c s IH]; intros a b H; simpl in H.
  - inversion H; subst. repeat split.
  - destruct (p c) eqn:Hc.
    + destruct (span p s) as [a' b'] eqn:Hs. inversion H; subst.
      destruct (IH _ _ eq_refl) as (-> & Ha & Hb).
      simpl. rewrite Hc, Ha. repeat split. exact Hb.
    + inversion H; subst. simpl. repeat split. exact Hc.
Qed.

Lemma span_app (p : ascii -> bool) (a b : string) :
  forall_chars p a = true -> stops p b -> span p (a ++ b) = (a, b).
Proof.
  intros Ha Hb. induction a as [|c a IH]; simpl in *.
  - destruct b as [|x b]; simpl in *; [reflexivity|]. rewrite Hb. reflexivity.
  - apply andb_true_iff in Ha as [Hc Ha]. rewrite Hc, (IH Ha). reflexivity.
Qed.

(** ** Decimal literals *)

Lemma digits_value_app (a : Z) (x y : string) :
  digits_value a (x ++ y) = digits_value (digits_value a x) y.
Proof. revert a. induction x as [|c x IH]; intros a; simpl; auto. Qed.

Lemma int_digits_app (ds rest : string) (acc : Z) :
  forall_chars isdecimal ds = true ->
  int_digits acc (ds ++ rest) = int_digits (digits_value acc ds) rest.
Proof.
  revert acc. induction ds as [|c ds IH]; intros acc H; simpl in *.
  - reflexivity.
  - apply andb_true_iff in H as [Hc H]. rewrite Hc. apply IH, H.
Qed.

Lemma is_literal_spec (ds : string) :
  is_literal ds = true <->
  is_empty ds = false /\ forall_chars isdecimal ds = true.
Proof.
  unfold is_literal. rewrite andb_true_iff, negb_true_iff. tauto.
Qed.

Lemma digit_count_literal (ds : string) :
  forall_chars isdecimal ds = true -> digit_count ds = String.length ds.
Proof.
  induction ds as [|c r IH]; cbn [forall_chars digit_count String.length];
    [reflexivity|].
  intros H. apply andb_true_iff in H as [Hc Hr]. rewrite Hc, (IH Hr).
  reflexivity.
Qed.

(** [int] reads a literal as the number it denotes, unless the literal is
    longer than the limit. *)
Lemma int_literal_cases (ds : string) :
  is_literal ds = true ->
  int ds = if fits_int ds then Ok (decimal_value ds) else Raise ValueError.
Proof.
  intros H. apply is_literal_spec in H as [Hne Hd].
  pose proof (digit_count_literal ds Hd) as Hcount.
  destruct ds as [|c r]; [discriminate|]. cbn [forall_chars] in Hd.
  apply andb_true_iff in Hd as [Hc Hr].
  assert (Hdig : int_digits (digit_value c) r
                 = (digits_value (digit_value c) r, "")).
  { rewrite <- (app_nil_r r) at 1.
    rewrite (int_digits_app _ _ _ Hr). reflexivity. }
  unfold int, fits_int. rewrite Hcount. cbn [skip].
  rewrite (decimal_not_int_space _ Hc).
  rewrite (decimal_neq c "+" Hc eq_refl), (decimal_neq c "-" Hc eq_refl).
  rewrite Hc, Hdig. cbn [forall_chars].
  destruct (String.length (String c r) <=? INT_MAX_STR_DIGITS)%nat;
    [|reflexivity].
  rewrite Z.mul_1_l. reflexivity.
Qed.

Lemma int_literal (ds : string) :
  is_literal ds = true -> fits_int ds = true -> int ds = Ok (decimal_value ds).
Proof. intros Hl Hf. rewrite (int_literal_cases ds Hl), Hf. reflexivity. Qed.

Lemma int_literal_long (ds : string) :
  is_literal ds = true -> fits_int ds = false -> int ds = Raise ValueError.
Proof. intros Hl Hf. rewrite (int_literal_cases ds Hl), Hf. reflexivity. Qed.

Lemma literal_isdigit (ds : string) : is_literal ds = true -> isdigit ds = true.
Proof.
  unfold is_literal, isdigit. intros H.
  apply andb_true_iff in H as [-> H]. simpl.
  induction ds as [|c r IH]; simpl in *; [reflexivity|].
  apply andb_true_iff in H as [Hc Hr].
  rewrite (decimal_is_digit _ Hc), (IH Hr). reflexivity.
Qed.

Lemma decimal_aux_spec (f : nat) :
  forall (n : N) (acc : string),
    (n < 2 ^ N.of_nat f)%N -> (0 < f)%nat ->
    exists ds,
      decimal_aux f n acc = ds ++ acc /\ is_literal ds = true /\
      decimal_value ds = Z.of_N n.
Proof.
  induction f as [|f IH]; intros n acc Hn Hf; [lia|].
  simpl. destruct (N.ltb_spec n 10) as [Hlt | Hge].
  - exists (String (digit_char (n mod 10)) "").
    rewrite N.mod_small by lia.
    destruct (digit_char_spec n Hlt) as [Hd Hv].
    unfold is_literal, decimal_value. simpl. rewrite Hd, Hv.
    repeat split.
  - assert (Hdiv : (n / 10 < 2 ^ N.of_nat f)%N).
    { apply N.Div0.div_lt_upper_bound.
      rewrite Nat2N.inj_succ, N.pow_succ_r' in Hn. lia. }
    assert (Hpos : (0 < f)%nat).
    { destruct f; [|lia]. simpl in Hdiv.
      assert (n / 10 = 0)%N by lia.
      apply N.div_small_iff in H; lia. }
    destruct (IH (n / 10)%N (String (digit_char (n mod 10)) acc) Hdiv Hpos)
      as (ds & Heq & Hlit & Hval).
    exists (ds ++ String (digit_char (n mod 10)) "").
    rewrite Heq, app_assoc. split; [reflexivity|].
    apply is_literal_spec in Hlit as [Hne Hall].
    assert (Hm : (n mod 10 < 10)%N) by (apply N.mod_lt; lia).
    destruct (digit_char_spec _ Hm) as [Hd Hv].
    split.
    + apply is_literal_spec. rewrite is_empty_app, Hne, forall_chars_app, Hall.
      simpl. rewrite Hd. split; reflexivity.
    + unfold decimal_value in *. rewrite digits_value_app, Hval. simpl.
      rewrite Hv. pose proof (N.div_mod n 10). lia.
Qed.

(** The decimal form of a number is a literal that denotes it. *)
Lemma decimal_spec (n : N) :
  is_literal (decimal n) = true /\ decimal_value (decimal n) = Z.of_N n.
Proof.
  unfold decimal.
  destruct (decimal_aux_spec (S (N.to_nat (N.log2 n))) n "") as (ds & Heq & H).
  - rewrite Nat2N.inj_succ, N2Nat.id.
    destruct n as [|p]; [reflexivity|].
    apply N.log2_spec. lia.
  - lia.
  - rewrite Heq, app_nil_r. exact H.
Qed.

Lemma int_decimal (n : N) :
  fits_int (decimal n) = true -> int (decimal n) = Ok (Z.of_N n).
Proof.
  intros Hf. destruct (decimal_spec n) as [Hl Hv].
  rewrite (int_literal _ Hl Hf), Hv. reflexivity.
Qed.

Lemma digit_value_nonneg (c : ascii) : isdecimal c = true -> 0 <= digit_value c.
Proof.
  unfold isdecimal, between, digit_value. intros H.
  apply andb_true_iff in H as [H _]. apply N.leb_le in H. lia.
Qed.

Lemma digits_value_nonneg (ds : string) :
  forall acc, 0 <= acc -> forall_chars isdecimal ds = true ->
              0 <= digits_value acc ds.
Proof.
  induction ds as [|c r IH]; intros acc Hacc H; simpl in *; [exact Hacc|].
  apply andb_true_iff in H as [Hc Hr]. apply IH; [|exact Hr].
  pose proof (digit_value_nonneg c Hc). lia.
Qed.

Lemma decimal_value_nonneg (ds : string) :
  is_literal ds = true -> 0 <= decimal_value ds.
Proof.
  intros H. apply is_literal_spec in H as [_ H].
  apply digits_value_nonneg; [lia | exact H].
Qed.

Lemma decimal_aux_head (f : nat) :
  forall (n : N) (acc : string),
    (n < 2 ^ N.of_nat f)%N -> (0 < f)%nat -> n <> 0%N ->
    startswith (decimal_aux f n acc) "0" = false.
Proof.
  induction f as [|f IH]; intros n acc Hn Hf H0; [lia|].
  cbn [decimal_aux]. destruct (N.ltb_spec n 10) as [Hlt | Hge].
  - rewrite N.mod_small by lia.
    assert (Hd : (n = 1 \/ n = 2 \/ n = 3 \/ n = 4 \/ n = 5 \/ n = 6
                  \/ n = 7 \/ n = 8 \/ n = 9)%N) by lia.
    repeat (destruct Hd as [-> | Hd]; [reflexivity|]).
    subst n. reflexivity.
  - assert (Hdiv : (n / 10 < 2 ^ N.of_nat f)%N).
    { apply N.Div0.div_lt_upper_bound.
      rewrite Nat2N.inj_succ, N.pow_succ_r' in Hn. lia. }
    assert (Hq : (n / 10 <> 0)%N).
    { intros H. apply N.div_small_iff in H; lia. }
    assert (Hpos : (0 < f)%nat).
    { destruct f; [|lia]. simpl in Hdiv. lia. }
    apply (IH _ _ Hdiv Hpos Hq).
Qed.

(** The decimal form has no zero in front, the form of zero apart. *)
Lemma decimal_canonical (n : N) :
  startswith (decimal n) "0" = true -> decimal n = "0".
Proof.
  destruct n as [|q]; [reflexivity|]. intros H.
  unfold decimal in H. rewrite decimal_aux_head in H; [discriminate| |lia|lia].
  rewrite Nat2N.inj_succ, N2Nat.id. apply N.log2_spec. lia.
Qed.

(** What [str] prints for a number that is not negative: the literal
    without leading zeros that denotes it. *)
Lemma str_of_int_spec (v : Z) :
  0 <= v ->
  is_literal (str_of_int v) = true /\ decimal_value (str_of_int v) = v /\
  (startswith (str_of_int v) "0" = true -> str_of_int v = "0").
Proof.
  intros Hv. unfold str_of_int. destruct (Z.ltb_spec v 0); [lia|].
  destruct (decimal_spec (Z.abs_N v)) as [Hl Hd].
  split; [exact Hl|]. split; [rewrite Hd; lia|]. apply decimal_canonical.
Qed.

(** ** The regular expression *)

Lemma match_every_groups (s ds us : string) :
  match_every s = Some (ds, us) ->
  exists u ws post,
    us = String u "" /\ s = "@every" ++ ws ++ ds ++ String u post /\
    is_empty ws = false /\ forall_chars isspace ws = true /\
    is_empty ds = false /\ forall_chars isdecimal ds = true /\
    is_unit u = true.
Proof.
  unfold match_every. intros H.
  destruct (strip_prefix "@every" s) as [r|] eqn:Hp; [|discriminate].
  apply strip_prefix_some in Hp.
  destruct (span isspace r) as [ws r1] eqn:Hws.
  apply span_spec in Hws as (Hr & Hall & _).
  destruct (is_empty ws) eqn:Hne; [discriminate|].
  destruct (span isdecimal r1) as [ds' r2] eqn:Hds.
  apply span_spec in Hds as (Hr1 & Halld & _).
  destruct (is_empty ds') eqn:Hned; [discriminate|].
  destruct r2 as [|u post]; [discriminate|].
  destruct (is_unit u) eqn:Hu; [|discriminate].
  inversion H; subst. exists u, ws, post. repeat split; assumption.
Qed.

Lemma stops_literal (p : ascii -> bool) (ds rest : string) :
  is_empty ds = false -> forall_chars isdecimal ds = true ->
  (forall c, isdecimal c = true -> p c = false) ->
  stops p (ds ++ rest).
Proof.
  intros Hne Hall Hp. destruct ds as [|c r]; [discriminate|].
  simpl in *. apply andb_true_iff in Hall as [Hc _]. apply Hp, Hc.
Qed.

Lemma match_every_intro (ws ds post : string) (u : ascii) :
  is_empty ws = false -> forall_chars isspace ws = true ->
  is_empty ds = false -> forall_chars isdecimal ds = true ->
  is_unit u = true ->
  match_every ("@every" ++ ws ++ ds ++ String u post) = Some (ds, String u "").
Proof.
  intros Hne Hall Hned Halld Hu. unfold match_every.
  rewrite strip_prefix_app.
  rewrite (span_app isspace ws _ Hall)
    by (apply stops_literal; auto using decimal_not_space).
  rewrite Hne.
  rewrite (span_app isdecimal ds _ Halld)
    by (simpl; apply unit_not_decimal, Hu).
  rewrite Hned, Hu. reflexivity.
Qed.

(** The matcher accepts at the head of [s] exactly the words of the
    expression, and the groups of a word are determined by it. *)
Lemma match_every_token (s ds : string) (u : ascii) :
  match_every s = Some (ds, String u "") <->
  exists t post, s = t ++ post /\ every_token t ds u.
Proof.
  split.
  - intros H. apply match_every_groups in H
      as (u' & ws & post & Hu & -> & Hne & Hall & Hned & Halld & Hunit).
    inversion Hu; subst u'.
    exists ("@every" ++ ws ++ ds ++ String u ""), post. split.
    + rewrite !app_assoc. reflexivity.
    + exists ws. repeat split; assumption.
  - intros (t & post & -> & ws & -> & Hne & Hall & Hned & Halld & Hu).
    rewrite !app_assoc. simpl.
    apply (match_every_intro ws ds post u); assumption.
Qed.

Lemma token_at_match (s pre ds : string) (u : ascii) :
  token_at s pre ds u <->
  exists r, s = pre ++ r /\ match_every r = Some (ds, String u "").
Proof.
  unfold token_at. split.
  - intros (t & post & -> & Ht). exists (t ++ post). split; [reflexivity|].
    apply match_every_token. exists t, post. auto.
  - intros (r & -> & Hm). apply match_every_token in Hm as (t & post & -> & Ht).
    exists t, post. auto.
Qed.

Lemma re_search_every_eq (s : string) :
  re_search_every s =
  match match_every s with
  | Some g => Some g
  | None =>
      match s with
      | EmptyString => None
      | String _ s' => re_search_every s'
      end
  end.
Proof. destruct s; reflexivity. Qed.

Lemma app_inv_length (a b a' b' : string) :
  a ++ b = a' ++ b' -> String.length a = String.length a' ->
  a = a' /\ b = b'.
Proof.
  revert a'. induction a as [|x a IH]; intros [|y a'] H Hl; simpl in *;
    try discriminate.
  - auto.
  - inversion H; subst. destruct (IH a') as [-> ->]; auto.
Qed.

(** What [re.search] returns is a match, and no match starts before it. *)
Lemma re_search_every_some (s ds us : string) :
  re_search_every s = Some (ds, us) ->
  exists pre r,
    s = pre ++ r /\ match_every r = Some (ds, us) /\
    forall pre' r',
      s = pre' ++ r' -> (String.length pre' < String.length pre)%nat ->
      match_every r' = None.
Proof.
  induction s as [|c s IH]; rewrite re_search_every_eq; intros H.
  - destruct (match_every "") as [g|] eqn:Hm; [|discriminate].
    inversion H; subst. exists "", "". repeat split; auto.
    simpl. intros; lia.
  - destruct (match_every (String c s)) as [g|] eqn:Hm.
    + inversion H; subst. exists "", (String c s). repeat split; auto.
      simpl. intros; lia.
    + destruct (IH H) as (pre & r & -> & Hr & Hmin).
      exists (String c pre), r. repeat split; auto.
      intros pre' r' Heq Hlen. destruct pre' as [|c' pre'']; simpl in *.
      * subst r'. exact Hm.
      * inversion Heq; subst. apply (Hmin pre'' r'); [assumption | lia].
Qed.

Lemma re_search_every_none (s : string) :
  re_search_every s = None ->
  forall pre r, s = pre ++ r -> match_every r = None.
Proof.
  induction s as [|c s IH]; rewrite re_search_every_eq; intros H pre r Heq.
  - destruct pre; [|discriminate]. simpl in Heq. subst r.
    destruct (match_every ""); [discriminate | reflexivity].
  - destruct (match_every (String c s)) as [g|] eqn:Hm; [discriminate|].
    destruct pre as [|c' pre]; simpl in Heq.
    + subst r. exact Hm.
    + inversion Heq; subst. apply (IH H pre r eq_refl).
Qed.

(** [re.search] finds no match exactly when the string has no token. *)
Lemma re_search_every_none_iff (s : string) :
  re_search_every s = None <-> ~ has_token s.
Proof.
  split.
  - intros H (pre & ds & u & Ht).
    apply token_at_match in Ht as (r & Heq & Hm).
    rewrite (re_search_every_none s H pre r Heq) in Hm. discriminate.
  - intros Hno. destruct (re_search_every s) as [[ds us]|] eqn:Hs; [|reflexivity].
    exfalso. apply Hno.
    apply re_search_every_some in Hs as (pre & r & Heq & Hm & _).
    destruct (match_every_groups _ _ _ Hm) as (u & _ & _ & -> & _).
    exists pre, ds, u. apply token_at_match. exists r. auto.
Qed.

(** [re.search] returns the groups of the token that starts first. *)
Lemma re_search_every_first (s ds : string) (u : ascii) :
  re_search_every s = Some (ds, String u "") <-> first_token s ds u.
Proof.
  split.
  - intros Hs. apply re_search_every_some in Hs as (pre & r & Heq & Hm & Hmin).
    exists pre. split.
    + apply token_at_match. exists r. auto.
    + intros pre' ds' u' Ht. apply token_at_match in Ht as (r' & Heq' & Hm').
      destruct (Nat.le_gt_cases (String.length pre) (String.length pre'))
        as [Hle | Hlt]; [exact Hle|].
      rewrite (Hmin pre' r' Heq' Hlt) in Hm'. discriminate.
  - intros (pre & Ht & Hfirst).
    pose proof Ht as Ht'. apply token_at_match in Ht' as (r & Heq & Hm).
    destruct (re_search_every s) as [[ds2 us2]|] eqn:Hs.
    + apply re_search_every_some in Hs as (pre2 & r2 & Heq2 & Hm2 & Hmin).
      destruct (match_every_groups _ _ _ Hm2) as (u2 & _ & _ & -> & _).
      assert (Hle : (String.length pre <= String.length pre2)%nat).
      { apply (Hfirst pre2 ds2 u2). apply token_at_match. exists r2. auto. }
      assert (Hge : (String.length pre2 <= String.length pre)%nat).
      { destruct (Nat.le_gt_cases (String.length pre2) (String.length pre))
          as [H | H]; [exact H|].
        rewrite (Hmin pre r Heq H) in Hm. discriminate. }
      assert (Hlen : String.length pre = String.length pre2) by lia.
      rewrite Heq in Heq2.
      destruct (app_inv_length _ _ _ _ Heq2 Hlen) as [_ <-].
      rewrite Hm in Hm2. symmetry. exact Hm2.
    + rewrite (re_search_every_none s Hs pre r Heq) in Hm. discriminate.
Qed.

(** ** Dates and durations *)

Lemma in_range_spec (lo hi x : Z) :
  in_range lo hi x = true <-> lo <= x <= hi.
Proof. unfold in_range. rewrite andb_true_iff, !Z.leb_le. tauto. Qed.

Lemma datetime_ok_spec (t : datetime) :
  datetime_ok t = true <->
  1 <= ordinal t <= MAXORDINAL /\ 0 <= hour t <= 23 /\ 0 <= minute t <= 59 /\
  0 <= second t <= 59 /\ 0 <= microsecond t <= 999999.
Proof.
  unfold datetime_ok. rewrite !andb_true_iff, !in_range_spec. tauto.
Qed.

(** A sum that is returned is a [datetime], later by the length of the
    duration. *)
Lemma datetime_add_spec (t r : datetime) (d : timedelta) :
  datetime_add t d = Ok r ->
  datetime_ok r = true /\ to_microseconds r = to_microseconds t + td_total d.
Proof.
  unfold datetime_add. intros H.
  destruct (in_range 1 MAXORDINAL _) eqn:Ho; [|discriminate].
  apply in_range_spec in Ho. inversion H; subst; clear H. split.
  - apply datetime_ok_spec. simpl.
    repeat split; try assumption; try lia;
      Z.to_euclidean_division_equations; lia.
  - unfold to_microseconds, td_total. simpl.
    Z.to_euclidean_division_equations. lia.
Qed.

(** The sum is returned when it falls between [datetime.min] and
    [datetime.max]. *)
Lemma datetime_add_returns (t : datetime) (d : timedelta) :
  datetime_ok t = true ->
  86400000000 <= to_microseconds t + td_total d < datetime_end ->
  returns (datetime_add t d).
Proof.
  intros Ht Hr. apply datetime_ok_spec in Ht.
  unfold datetime_add.
  destruct (in_range 1 MAXORDINAL _) eqn:Ho; [eexists; reflexivity|].
  exfalso. apply not_true_iff_false in Ho. apply Ho, in_range_spec.
  unfold to_microseconds, td_total, datetime_end, MAXORDINAL in *.
  Z.to_euclidean_division_equations. lia.
Qed.

(** A duration of whole minutes leaves the seconds and the microseconds of
    the instant as they are. *)
Lemma datetime_add_keeps_seconds (t r : datetime) (d : timedelta) :
  datetime_ok t = true ->
  td_microseconds d = 0 -> td_seconds d mod 60 = 0 ->
  datetime_add t d = Ok r ->
  second r = second t /\ microsecond r = microsecond t.
Proof.
  intros Ht Hus Hs H. apply datetime_ok_spec in Ht.
  unfold datetime_add in H.
  destruct (in_range 1 MAXORDINAL _); [|discriminate].
  inversion H; subst; clear H. simpl. rewrite Hus.
  split; Z.to_euclidean_division_equations; lia.
Qed.

Lemma datetime_add_zero (t : datetime) :
  datetime_ok t = true -> datetime_add t (mktimedelta 0 0 0) = Ok t.
Proof.
  intros Ht. pose proof Ht as Hr. apply datetime_ok_spec in Hr.
  unfold datetime_add. simpl.
  rewrite !Z.add_0_r.
  rewrite (Z.div_small (microsecond t)), (Z.mod_small (microsecond t)) by lia.
  rewrite !Z.add_0_r.
  rewrite (Z.div_small (second t)), (Z.mod_small (second t)) by lia.
  rewrite !Z.add_0_r.
  rewrite (Z.div_small (minute t)), (Z.mod_small (minute t)) by lia.
  rewrite !Z.add_0_r.
  rewrite (Z.div_small (hour t)), (Z.mod_small (hour t)) by lia.
  rewrite !Z.add_0_r.
  replace (in_range 1 MAXORDINAL (ordinal t)) with true
    by (symmetry; apply in_range_spec; lia).
  destruct t; reflexivity.
Qed.

(** [replace] returns the datetime with the new fields when that is one:
    fields in range fit a C [int]. *)
Lemma replace_ok (t : datetime) (h m s us : option Z) :
  datetime_ok (mkdatetime (ordinal t) (default h (hour t))
                          (default m (minute t)) (default s (second t))
                          (default us (microsecond t))) = true ->
  replace t h m s us =
  Ok (mkdatetime (ordinal t) (default h (hour t)) (default m (minute t))
                 (default s (second t)) (default us (microsecond t))).
Proof.
  intros H. unfold replace. rewrite H.
  apply datetime_ok_spec in H. cbn [ordinal hour minute second microsecond] in H.
  assert (Hc : c_int h && c_int m && c_int s && c_int us = true).
  { rewrite !andb_true_iff. repeat split.
    - destruct h as [v|]; [|reflexivity]. apply in_range_spec. simpl in H. lia.
    - destruct m as [v|]; [|reflexivity]. apply in_range_spec. simpl in H. lia.
    - destruct s as [v|]; [|reflexivity]. apply in_range_spec. simpl in H. lia.
    - destruct us as [v|]; [|reflexivity]. apply in_range_spec. simpl in H. lia. }
  rewrite Hc. reflexivity.
Qed.

(** The order of [datetime] is the order of the instants. *)
Lemma datetime_le_spec (a b : datetime) :
  datetime_ok a = true -> datetime_ok b = true ->
  (datetime_le a b = true <-> to_microseconds a <= to_microseconds b).
Proof.
  intros Ha Hb. apply datetime_ok_spec in Ha, Hb.
  unfold datetime_le, to_microseconds.
  repeat match goal with
         | |- context [?x =? ?y] => destruct (Z.eqb_spec x y)
         end;
    rewrite ?Z.leb_le, ?Z.ltb_lt; lia.
Qed.

(** Two datetimes at the same instant are the same. *)
Lemma to_microseconds_inj (a b : datetime) :
  datetime_ok a = true -> datetime_ok b = true ->
  to_microseconds a = to_microseconds b -> a = b.
Proof.
  intros Ha Hb H. apply datetime_ok_spec in Ha, Hb.
  unfold to_microseconds in H.
  destruct a as [oa ha ma sa ua], b as [ob hb mb sb ub]. simpl in *.
  assert (oa = ob) by lia. assert (ha = hb) by lia.
  assert (ma = mb) by lia. assert (sa = sb) by lia.
  assert (ua = ub) by lia. congruence.
Qed.

(** [timedelta(days=d, hours=h, minutes=m)], when it is returned, lasts
    what its arguments say, in whole minutes. *)
Lemma mk_timedelta_spec (d h m : Z) (td : timedelta) :
  mk_timedelta d h m = Ok td ->
  td_total td = (d * 86400 + h * 3600 + m * 60) * 1000000 /\
  td_microseconds td = 0 /\ td_seconds td mod 60 = 0.
Proof.
  unfold mk_timedelta. intros H.
  destruct (Z.abs _ <=? MAX_DELTA_DAYS); [|discriminate].
  inversion H; subst; clear H. unfold td_total. simpl.
  repeat split; Z.to_euclidean_division_equations; lia.
Qed.

Lemma mk_timedelta_returns (d h m : Z) :
  0 <= d * 86400 + h * 3600 + m * 60 < datetime_end / 1000000 ->
  0 <= d ->
  returns (mk_timedelta d h m).
Proof.
  intros Hr Hd. unfold mk_timedelta.
  destruct (Z.abs _ <=? MAX_DELTA_DAYS) eqn:Hb; [eexists; reflexivity|].
  exfalso. apply Z.leb_gt in Hb.
  unfold datetime_end, MAXORDINAL, MAX_DELTA_DAYS in *.
  change ((3652059 + 1) * 86400000000 / 1000000) with 315537984000 in Hr.
  Z.to_euclidean_division_equations. lia.
Qed.

(** ** The shortcut table *)

Lemma lookup_in (k v : string) (d : list (string * string)) :
  lookup k d = Some v -> In (k, v) d.
Proof.
  induction d as [|[k' v'] d IH]; simpl; [discriminate|].
  destruct (String.eqb_spec k k') as [->|]; intros H.
  - inversion H. left. reflexivity.
  - right. apply IH, H.
Qed.

(** Every key of the table starts with an at sign and is one field. *)
Lemma shortcut_key (k v : string) :
  lookup k SHORTCUTS = Some v ->
  startswith k "@" = true /\ split k = [k] /\
  startswith k "@every" = false /\ strip k = k.
Proof.
  intros H. apply lookup_in in H. simpl in H.
  repeat (destruct H as [H | H]; [inversion H; subst; repeat split|]).
  contradiction.
Qed.

Lemma not_at_not_shortcut (s : string) :
  startswith s "@" = false -> lookup s SHORTCUTS = None.
Proof.
  intros H. destruct (lookup s SHORTCUTS) as [v|] eqn:Hl; [|reflexivity].
  apply shortcut_key in Hl as [Hat _]. congruence.
Qed.

Lemma every_not_shortcut (s : string) :
  startswith s "@every" = true -> lookup s SHORTCUTS = None.
Proof.
  intros H. destruct (lookup s SHORTCUTS) as [v|] eqn:Hl; [|reflexivity].
  apply shortcut_key in Hl as (_ & _ & Hev & _). congruence.
Qed.

(** ** The [@every] branch *)

Lemma is_unit_cases (u : ascii) :
  is_unit u = true -> u = "m"%char \/ u = "h"%char \/ u = "d"%char.
Proof.
  unfold is_unit.
  destruct (Ascii.eqb_spec u "m"); [auto|].
  destruct (Ascii.eqb_spec u "h"); [auto|].
  destruct (Ascii.eqb_spec u "d"); [auto|]. discriminate.
Qed.

Lemma re_search_every_literal (ds rest : string) (u : ascii) :
  is_literal ds = true -> is_unit u = true ->
  re_search_every ("@every " ++ ds ++ String u rest) = Some (ds, String u "").
Proof.
  intros Hl Hu. apply is_literal_spec in Hl as [Hne Hall].
  rewrite re_search_every_eq.
  change ("@every " ++ ds ++ String u rest)
    with ("@every" ++ " " ++ ds ++ String u rest).
  rewrite (match_every_intro " " ds rest u) by auto. reflexivity.
Qed.

(** On [@every <digits><unit>], whatever follows, the first branch of
    [calculate_next_run] returns: the exception of [int] on the digits, or
    the reference time plus that many units. *)
Lemma next_run_every_token (ds rest : string) (u : ascii) (T : datetime) :
  is_literal ds = true -> is_unit u = true ->
  next_run_every ("@every " ++ ds ++ String u rest) T =
  Some (value <- int ds ;;
        d <- unit_timedelta u value ;; datetime_add T d).
Proof.
  intros Hl Hu. unfold next_run_every.
  change (startswith ("@every " ++ ds ++ String u rest) "@every") with true.
  rewrite (re_search_every_literal ds rest u Hl Hu).
  destruct (int ds) as [value|e]; [|reflexivity].
  destruct (is_unit_cases u Hu) as [-> | [-> | ->]]; reflexivity.
Qed.

Lemma next_run_every_literal (ds : string) (u : ascii) (T : datetime) :
  is_literal ds = true -> is_unit u = true -> fits_int ds = true ->
  next_run_every ("@every " ++ ds ++ String u "") T =
  Some (d <- unit_timedelta u (decimal_value ds) ;; datetime_add T d).
Proof.
  intros Hl Hu Hf.
  rewrite (next_run_every_token ds "" u T Hl Hu), (int_literal ds Hl Hf).
  reflexivity.
Qed.



(** ** The claims on [@every] and on the shortcuts *)

(** C4. For each key of the shortcut table ([@yearly], [@annually],
    [@monthly], [@weekly], [@daily], [@midnight], [@hourly]) the
    description of the key is the description of the five-field string the
    table maps it to: the key is replaced once and the result is described
    as standard cron. *)
Theorem shortcut_described_as_expansion (k v : string) :
  lookup k SHORTCUTS = Some v ->
  parse_schedule k = parse_schedule v /\
  parse_schedule k = _describe_standard_cron v /\
  returns (parse_schedule k).
Proof.
  intros H. apply lookup_in in H. simpl in H.
  repeat (destruct H as [H | H];
          [inversion H; subst; repeat split; eexists; reflexivity|]).
  contradiction.
Qed.

Lemma shortcut_described_as_expansion_witness :
  lookup "@hourly" SHORTCUTS = Some "0 * * * *" /\
  parse_schedule "@hourly" = parse_schedule "0 * * * *".
Proof.
  split; [reflexivity|].
  apply (shortcut_described_as_expansion "@hourly" "0 * * * *"). reflexivity.
Defined.





(** C10. For every reference time [T] the next run of [@every 0m], of
    [@every 0h] and of [@every 0d] is [T] itself: with a count of zero the
    branch is the identity, the result is not after the reference time and
    nothing moves it forward. *)
Theorem every_zero_is_identity (T : datetime) :
  datetime_ok T = true ->
  calculate_next_run "@every 0m" T = Ok T /\
  calculate_next_run "@every 0h" T = Ok T /\
  calculate_next_run "@every 0d" T = Ok T.
Proof.
  intros HT.
  pose proof (next_run_every_literal "0" "m" T eq_refl eq_refl eq_refl) as Hm.
  pose proof (next_run_every_literal "0" "h" T eq_refl eq_refl eq_refl) as Hh.
  pose proof (next_run_every_literal "0" "d" T eq_refl eq_refl eq_refl) as Hd.
  change (unit_timedelta "m" (decimal_value "0"))
    with (Ok (mktimedelta 0 0 0)) in Hm.
  change (unit_timedelta "h" (decimal_value "0"))
    with (Ok (mktimedelta 0 0 0)) in Hh.
  change (unit_timedelta "d" (decimal_value "0"))
    with (Ok (mktimedelta 0 0 0)) in Hd.
  cbn [append bind] in Hm, Hh, Hd.
  rewrite (datetime_add_zero T HT) in Hm, Hh, Hd.
  unfold calculate_next_run. rewrite Hm, Hh, Hd. auto.
Qed.

Lemma every_zero_is_identity_witness :
  datetime_ok (datetime_of 2024 1 1 10 0 30) = true /\
  calculate_next_run "@every 0m" (datetime_of 2024 1 1 10 0 30) =
  Ok (datetime_of 2024 1 1 10 0 30).
Proof.
  split; [reflexivity|].
  apply (every_zero_is_identity (datetime_of 2024 1 1 10 0 30)). reflexivity.
Defined.

(** ** Trimming and splitting *)

Lemma split_scan_lstrip (s : string) :
  split_scan "" (lstrip s) = split_scan "" s.
Proof.
  induction s as [|c s IH]; simpl; [reflexivity|].
  destruct (isspace c) eqn:Hc; simpl; [exact IH|].
  rewrite Hc. reflexivity.
Qed.

Lemma split_scan_rstrip (s : string) :
  forall w, split_scan w (rstrip s) = split_scan w s.
Proof.
  induction s as [|c s IH]; intros w; simpl; [reflexivity|].
  destruct (is_empty (rstrip s) && isspace c) eqn:Hb.
  - apply andb_true_iff in Hb as [He Hc]. apply is_empty_true in He.
    rewrite Hc. pose proof (IH "") as H0. rewrite He in H0. simpl in H0.
    rewrite <- H0. reflexivity.
  - simpl. destruct (isspace c); rewrite ?IH; reflexivity.
Qed.

(** The fields of a string are those of the trimmed string. *)
Lemma split_strip (s : string) : split (strip s) = split s.
Proof.
  unfold split, strip. rewrite split_scan_rstrip. apply split_scan_lstrip.
Qed.

Lemma split_scan_head (s : string) :
  forall w, is_empty w = false ->
            exists w' rest, split_scan w s = (w ++ w') :: rest.
Proof.
  induction s as [|c s IH]; intros w Hw; simpl.
  - rewrite Hw. exists "", []. rewrite app_nil_r. reflexivity.
  - destruct (isspace c).
    + rewrite Hw. exists "", (split_scan "" s). rewrite app_nil_r. reflexivity.
    + destruct (IH (w ++ String c "")) as (w' & rest & ->).
      { rewrite is_empty_app. simpl. apply andb_false_r. }
      exists (String c w'), rest. rewrite app_assoc. reflexivity.
Qed.

(** The first field of a string that starts with a character other than
    white space starts with that character. *)
Lemma split_head (c : ascii) (r f : string) (fs : list string) :
  isspace c = false -> split (String c r) = f :: fs ->
  exists f', f = String c f'.
Proof.
  intros Hc H. unfold split in H. simpl in H. rewrite Hc in H.
  destruct (split_scan_head r (String c "") eq_refl) as (w' & rest & Heq).
  rewrite Heq in H. inversion H. exists w'. reflexivity.
Qed.

Lemma lstrip_head (s r : string) (c : ascii) :
  lstrip s = String c r -> isspace c = false.
Proof.
  induction s as [|x s IH]; simpl; [discriminate|].
  destruct (isspace x) eqn:Hx; [exact IH|].
  intros H. inversion H; subst. exact Hx.
Qed.

Lemma rstrip_head (s r : string) (c : ascii) :
  rstrip s = String c r -> exists r', s = String c r'.
Proof.
  destruct s as [|x s]; simpl; [discriminate|].
  destruct (is_empty (rstrip s) && isspace x); [discriminate|].
  intros H. inversion H; subst. exists s. reflexivity.
Qed.

Lemma strip_head (s r : string) (c : ascii) :
  strip s = String c r -> isspace c = false.
Proof.
  unfold strip. intros H. apply rstrip_head in H as [r' H].
  apply (lstrip_head _ _ _ H).
Qed.

(** The first field of a trimmed string starts where the string starts. *)
Lemma trimmed_field_head (s f : string) (fs : list string) :
  split (strip s) = f :: fs ->
  exists c r f', strip s = String c r /\ f = String c f'.
Proof.
  intros H. destruct (strip s) as [|c r] eqn:Hs; [discriminate|].
  destruct (split_head c r f fs (strip_head _ _ _ Hs) H) as [f' ->].
  exists c, r, f'. auto.
Qed.

Lemma rstrip_idempotent (s : string) : rstrip (rstrip s) = rstrip s.
Proof.
  induction s as [|c s IH]; simpl; [reflexivity|].
  destruct (is_empty (rstrip s) && isspace c) eqn:Hb; [reflexivity|].
  simpl. rewrite IH, Hb. reflexivity.
Qed.

Lemma lstrip_nonspace (s : string) :
  stops isspace s -> lstrip s = s.
Proof.
  destruct s as [|c s]; simpl; [reflexivity|]. intros ->. reflexivity.
Qed.

Lemma strip_idempotent (s : string) : strip (strip s) = strip s.
Proof.
  unfold strip at 1. rewrite lstrip_nonspace.
  - unfold strip. apply rstrip_idempotent.
  - destruct (strip s) as [|c r] eqn:Hs; simpl; [exact I|].
    apply (strip_head _ _ _ Hs).
Qed.

(** [parse_schedule] describes a string and the trimmed string alike. *)
Lemma parse_schedule_strip (s : string) :
  parse_schedule (strip s) = parse_schedule s.
Proof. unfold parse_schedule. rewrite strip_idempotent. reflexivity. Qed.

Lemma first_token_literal (s ds : string) (u : ascii) :
  first_token s ds u -> is_literal ds = true /\ is_unit u = true.
Proof.
  intros (pre & (t & post & _ & ws & _ & _ & _ & Hne & Hall & Hu) & _).
  split; [apply is_literal_spec; auto | exact Hu].
Qed.

(** C6, as amended. For every trimmed string that starts with [@every]:
    when the string has a token [@every], white space, digits [N], unit
    letter, and the digits [N] of the token that starts first are at most
    4300, the description is [Every], the number [N] denotes printed in
    decimal without leading zeros, the word of the unit of that token, and
    a final [s] exactly when that number is not 1; when those digits are
    more than 4300, [int] refuses them and the method raises [ValueError];
    when the string has no such token anywhere, the description is
    [Invalid @every syntax]. *)
Theorem every_described (s : string) :
  strip s = s -> startswith s "@every" = true ->
  (forall ds u,
     first_token s ds u -> fits_int ds = true ->
     let n := decimal_value ds in
     let printed := str_of_int n in
     parse_schedule s =
     Ok ("Every " ++ printed ++ " " ++ unit_word u
         ++ (if n =? 1 then "" else "s")) /\
     is_literal printed = true /\ decimal_value printed = n /\
     (startswith printed "0" = true -> printed = "0")) /\
  (forall ds u,
     first_token s ds u -> fits_int ds = false ->
     parse_schedule s = Raise ValueError) /\
  (has_token s -> exists ds u, first_token s ds u) /\
  (~ has_token s -> parse_schedule s = Ok "Invalid @every syntax").
Proof.
  intros Hs He.
  assert (Hp : parse_schedule s = _parse_every s).
  { unfold parse_schedule. rewrite Hs, (every_not_shortcut s He), He.
    reflexivity. }
  rewrite Hp. unfold _parse_every. split; [|split; [|split]].
  - intros ds u Ht Hf. cbv zeta.
    destruct (first_token_literal _ _ _ Ht) as [Hl Hu].
    split; [|apply str_of_int_spec, decimal_value_nonneg, Hl].
    apply re_search_every_first in Ht. rewrite Ht, (int_literal ds Hl Hf).
    destruct (is_unit_cases u Hu) as [-> | [-> | ->]]; reflexivity.
  - intros ds u Ht Hf.
    destruct (first_token_literal _ _ _ Ht) as [Hl Hu].
    apply re_search_every_first in Ht.
    rewrite Ht, (int_literal_long ds Hl Hf). reflexivity.
  - intros Hh. destruct (re_search_every s) as [[ds us]|] eqn:Hr.
    + pose proof Hr as Hr'.
      apply re_search_every_some in Hr' as (pre & r & _ & Hm & _).
      destruct (match_every_groups _ _ _ Hm) as (u & _ & _ & -> & _).
      exists ds, u. apply re_search_every_first, Hr.
    + apply re_search_every_none_iff in Hr. contradiction.
  - intros Hno. apply re_search_every_none_iff in Hno. rewrite Hno.
    reflexivity.
Qed.

Lemma every_described_witness :
  strip "@every 01m" = "@every 01m" /\
  startswith "@every 01m" "@every" = true /\
  first_token "@every 01m" "01" "m" /\ fits_int "01" = true /\
  parse_schedule "@every 01m" = Ok "Every 1 minute".
Proof.
  assert (Ht : first_token "@every 01m" "01" "m")
    by (apply re_search_every_first; reflexivity).
  split; [reflexivity|]. split; [reflexivity|]. split; [exact Ht|].
  split; [reflexivity|].
  exact (proj1 (proj1 (every_described "@every 01m" eq_refl eq_refl)
                      "01" "m"%char Ht eq_refl)).
Defined.

(** C6 as it was stated, for digits of any length, fails: a trimmed string
    whose token has 4301 digits is not described, [int] refuses the digits
    and the method raises [ValueError]. *)
Lemma every_described_counterexample :
  let ds := String.concat "" (repeat "1" 4301) in
  let s := "@every " ++ ds ++ "m" in
  strip s = s /\ startswith s "@every" = true /\
  first_token s ds "m" /\ String.length ds = 4301%nat /\
  parse_schedule s = Raise ValueError.
Proof.
  intros ds s.
  split; [vm_compute; reflexivity|]. split; [reflexivity|].
  split; [apply re_search_every_first; vm_compute; reflexivity|].
  split; vm_compute; reflexivity.
Qed.

(** ** Where the methods raise *)

(** C1 (violated by the code). The claim is that both methods return a
    value on every string. They do not: on a five-field string whose step
    is not a number, [int] raises [ValueError] in both methods, and on
    minutes and hours outside their ranges [datetime.replace] raises
    [ValueError] in [calculate_next_run]; a sum after [datetime.max] is an
    [OverflowError]. *)
Theorem step_not_a_number_raises :
  parse_schedule "*/x * * * *" = Raise ValueError /\
  parse_schedule "*/ * * * *" = Raise ValueError /\
  (forall T, calculate_next_run "*/x * * * *" T = Raise ValueError) /\
  (forall T, calculate_next_run "*/ * * * *" T = Raise ValueError) /\
  (forall T, calculate_next_run "99 99 * * *" T = Raise ValueError) /\
  calculate_next_run "@every 1d" (datetime_of 9999 12 31 0 0 0)
  = Raise OverflowError /\
  ~ (forall s T, datetime_ok T = true ->
                 returns (parse_schedule s) /\ returns (calculate_next_run s T)).
Proof.
  assert (H99 : forall T, calculate_next_run "99 99 * * *" T = Raise ValueError).
  { intros T.
    assert (Hr : replace T (Some 99) (Some 99) (Some 0) (Some 0)
                 = Raise ValueError).
    { unfold replace, datetime_ok. cbn [default hour].
      change (in_range 0 23 99) with false.
      rewrite andb_false_r. reflexivity. }
    change (calculate_next_run "99 99 * * *" T)
      with (next_run <- replace T (Some 99) (Some 99) (Some 0) (Some 0) ;;
            if datetime_le next_run T
            then d <- timedelta_days 1 ;; datetime_add next_run d
            else Ok next_run).
    rewrite Hr. reflexivity. }
  repeat split; try reflexivity; try exact H99.
  intros H.
  destruct (H "*/x * * * *" (datetime_of 2024 1 1 0 0 0) eq_refl) as [[d Hd] _].
  discriminate.
Qed.

(** ** The five-field branch of [calculate_next_run] *)

Lemma fallback_spec (T : datetime) :
  datetime_ok T = true ->
  (forall r, fallback T = Ok r ->
     datetime_ok r = true /\
     to_microseconds r = to_microseconds T + 3600000000) /\
  (to_microseconds T + 3600000000 < datetime_end -> returns (fallback T)).
Proof.
  intros HT. unfold fallback.
  change (timedelta_hours 1) with (Ok (mktimedelta 0 3600 0)). simpl bind.
  split.
  - intros r Hr. apply datetime_add_spec in Hr as [Hok Hsum].
    split; [exact Hok|]. rewrite Hsum. reflexivity.
  - intros Hlt. apply datetime_add_returns; [exact HT|].
    apply datetime_ok_spec in HT.
    unfold td_total, to_microseconds, datetime_end, MAXORDINAL in *.
    simpl. lia.
Qed.

Lemma next_run_every_no_token (s : string) (T : datetime) :
  ~ has_token s -> next_run_every s T = None.
Proof.
  intros Hno. unfold next_run_every.
  rewrite (proj2 (re_search_every_none_iff s) Hno).
  destruct (startswith s "@every"); reflexivity.
Qed.

Lemma next_run_cron_unmodelled (s : string) (T : datetime) :
  unmodelled s -> next_run_cron s T = fallback T.
Proof.
  unfold unmodelled, next_run_cron, shape_modelled.
  destruct (split s) as [|a [|b [|c [|d [|e [|f l]]]]]]; try reflexivity.
  intros H. apply orb_false_iff in H as [H H3].
  apply orb_false_iff in H as [H1 H2].
  rewrite H1, H2, H3. reflexivity.
Qed.

(** A string that starts with [@random] has none of the modelled shapes:
    its first field starts with the at sign. *)
Lemma random_unmodelled (s : string) :
  startswith s "@random" = true ->
  startswith s "@every" = false /\ lookup s SHORTCUTS = None /\ unmodelled s.
Proof.
  intros H. apply startswith_inv in H as [r ->].
  split; [reflexivity|]. split; [reflexivity|].
  unfold unmodelled, shape_modelled.
  destruct (split ("@random" ++ r)) as [|f fs] eqn:Hs; [exact I|].
  destruct (split_head "@" _ f fs eq_refl Hs) as [f' ->].
  destruct fs as [|b [|c [|d [|e [|g l]]]]]; try exact I.
  change (isdigit (String "@" f')) with false.
  rewrite andb_false_r. reflexivity.
Qed.

(** C7. For every reference time [T] and every string that has no
    [@every <digits><unit>] token, is not a shortcut key, and either is not
    of five fields or is of five fields with none of the three modelled
    shapes, the next run is the fallback [T + timedelta(hours=1)]: the
    instant one hour after [T], returned whenever that is not after
    [datetime.max]. A string that starts with [@random] is such a string. *)
Theorem unmodelled_falls_back (s : string) (T : datetime) :
  datetime_ok T = true ->
  ~ has_token s -> lookup s SHORTCUTS = None -> unmodelled s ->
  calculate_next_run s T = fallback T /\
  (forall r, calculate_next_run s T = Ok r ->
     datetime_ok r = true /\
     to_microseconds r = to_microseconds T + 3600000000) /\
  (to_microseconds T + 3600000000 < datetime_end ->
   returns (calculate_next_run s T)) /\
  (forall s', startswith s' "@random" = true ->
              calculate_next_run s' T = fallback T).
Proof.
  intros HT Hno Hlk Hun.
  assert (Hc : calculate_next_run s T = fallback T).
  { unfold calculate_next_run.
    rewrite (next_run_every_no_token s T Hno), Hlk.
    apply next_run_cron_unmodelled, Hun. }
  rewrite Hc. destruct (fallback_spec T HT) as [Hval Hret].
  repeat split; try assumption; try (apply Hval; assumption).
  intros s' Hr. destruct (random_unmodelled s' Hr) as (Hne & Hl & Hu).
  unfold calculate_next_run, next_run_every. rewrite Hne, Hl.
  apply next_run_cron_unmodelled, Hu.
Qed.

Lemma no_match_no_token (s : string) :
  re_search_every s = None -> ~ has_token s.
Proof. apply re_search_every_none_iff. Qed.

Lemma unmodelled_falls_back_witness :
  datetime_ok (datetime_of 2024 1 1 10 0 30) = true /\
  ~ has_token "43 6,18 * * *" /\
  lookup "43 6,18 * * *" SHORTCUTS = None /\
  unmodelled "43 6,18 * * *" /\
  calculate_next_run "43 6,18 * * *" (datetime_of 2024 1 1 10 0 30) =
  Ok (datetime_of 2024 1 1 11 0 30).
Proof.
  assert (Hno : ~ has_token "43 6,18 * * *")
    by (apply no_match_no_token; reflexivity).
  split; [reflexivity|]. split; [exact Hno|]. split; [reflexivity|].
  split; [reflexivity|].
  exact (proj1 (unmodelled_falls_back "43 6,18 * * *"
                  (datetime_of 2024 1 1 10 0 30) eq_refl Hno eq_refl eq_refl)).
Defined.

Lemma literal_not_step (x : string) :
  is_literal x = true -> startswith x "*/" = false.
Proof.
  intros H. apply is_literal_spec in H as [Hne Hall].
  destruct x as [|c r]; [discriminate|]. cbn [forall_chars] in Hall.
  apply andb_true_iff in Hall as [Hc _].
  change (startswith (String c r) "*/")
    with (Ascii.eqb "*" c && startswith r "/").
  rewrite Ascii.eqb_sym, (decimal_neq c "*" Hc eq_refl). reflexivity.
Qed.

(** One day after a datetime that is not on the last day. *)
Lemma datetime_add_one_day (t : datetime) :
  datetime_ok t = true -> ordinal t < MAXORDINAL ->
  datetime_add t (mktimedelta 1 0 0) =
  Ok (mkdatetime (ordinal t + 1) (hour t) (minute t) (second t)
                 (microsecond t)).
Proof.
  intros Ht Hlast. pose proof Ht as Hr. apply datetime_ok_spec in Hr.
  destruct (datetime_add_returns t (mktimedelta 1 0 0) Ht) as [r Hadd].
  { unfold td_total, to_microseconds, datetime_end, MAXORDINAL in *.
    simpl. lia. }
  rewrite Hadd. f_equal.
  destruct (datetime_add_spec _ _ _ Hadd) as [Hok Hsum].
  apply to_microseconds_inj; [exact Hok | |].
  - apply datetime_ok_spec. simpl. lia.
  - rewrite Hsum. unfold to_microseconds, td_total. simpl. lia.
Qed.

(** Five fields with literal minutes and hours in range: the candidate on
    the day of [T], moved by one day when it is not after [T]. *)
Lemma next_run_cron_literal (s mi h d mo w : string) (T : datetime) :
  datetime_ok T = true ->
  split s = [mi; h; d; mo; w] ->
  is_literal mi = true -> is_literal h = true ->
  fits_int mi = true -> fits_int h = true ->
  decimal_value mi <= 59 -> decimal_value h <= 23 ->
  let cand := mkdatetime (ordinal T) (decimal_value h) (decimal_value mi) 0 0 in
  next_run_cron s T =
  if datetime_le cand T
  then day <- timedelta_days 1 ;; datetime_add cand day
  else Ok cand.
Proof.
  intros HT Hsplit Hmi Hh Hfm Hfh Hm59 Hh23 cand.
  pose proof (decimal_value_nonneg _ Hmi) as Hm0.
  pose proof (decimal_value_nonneg _ Hh) as Hh0.
  assert (Hcand : datetime_ok cand = true).
  { pose proof HT as Hr. apply datetime_ok_spec in Hr.
    apply datetime_ok_spec. simpl. lia. }
  unfold next_run_cron. rewrite Hsplit.
  rewrite (literal_not_step _ Hmi), (literal_not_step _ Hh).
  rewrite (literal_isdigit _ Hmi), (literal_isdigit _ Hh).
  rewrite (int_literal _ Hmi Hfm), (int_literal _ Hh Hfh).
  cbn [andb bind].
  rewrite (replace_ok T (Some (decimal_value h)) (Some (decimal_value mi))
                      (Some 0) (Some 0) Hcand).
  reflexivity.
Qed.

(** [@daily] is midnight of the day after the reference time. *)
Lemma daily_is_next_midnight (T : datetime) :
  datetime_ok T = true -> ordinal T < MAXORDINAL ->
  calculate_next_run "@daily" T = Ok (mkdatetime (ordinal T + 1) 0 0 0 0).
Proof.
  intros HT Hlast.
  change (calculate_next_run "@daily" T) with (next_run_cron "0 0 * * *" T).
  rewrite (next_run_cron_literal "0 0 * * *" "0" "0" "*" "*" "*" T HT eq_refl
             eq_refl eq_refl eq_refl eq_refl)
    by (vm_compute; discriminate).
  change (decimal_value "0") with 0.
  assert (Hcand : datetime_ok (mkdatetime (ordinal T) 0 0 0 0) = true).
  { pose proof HT as Hr. apply datetime_ok_spec in Hr.
    apply datetime_ok_spec. simpl. lia. }
  assert (Hle : datetime_le (mkdatetime (ordinal T) 0 0 0 0) T = true).
  { apply (datetime_le_spec _ _ Hcand HT).
    apply datetime_ok_spec in HT. unfold to_microseconds. simpl. lia. }
  rewrite Hle. change (timedelta_days 1) with (Ok (mktimedelta 1 0 0)).
  cbn [bind]. apply (datetime_add_one_day _ Hcand Hlast).
Qed.

(** With a blank in front [@daily] is one field that is no key. *)
Lemma blank_daily_falls_back (T : datetime) :
  calculate_next_run " @daily" T = fallback T.
Proof. reflexivity. Qed.

(** C2, as amended. For every string of five fields that does not start
    with [@every] and is not a shortcut key, whose minute and hour fields
    are decimal digits that denote a minute up to 59 and an hour up to 23
    (so neither step rule applies), and every reference time [T]. When
    each of the two fields has at most 4300 digits: the candidate is the
    day of [T] at that hour and minute with zero seconds and microseconds;
    the next run is the candidate when it is strictly after [T], and the
    candidate plus one day, the same time on the next day, when it is at or
    before [T]. When one of the two fields has more digits, [int] refuses
    it and the method raises [ValueError]. *)
Theorem specific_time_rolls_over (s mi h d mo w : string) (T : datetime) :
  datetime_ok T = true ->
  split s = [mi; h; d; mo; w] ->
  startswith s "@every" = false -> lookup s SHORTCUTS = None ->
  is_literal mi = true -> is_literal h = true ->
  decimal_value mi <= 59 -> decimal_value h <= 23 ->
  let cand := mkdatetime (ordinal T) (decimal_value h) (decimal_value mi) 0 0 in
  (fits_int mi = true -> fits_int h = true ->
   datetime_ok cand = true /\
   (to_microseconds T < to_microseconds cand ->
    calculate_next_run s T = Ok cand) /\
   (to_microseconds cand <= to_microseconds T ->
    calculate_next_run s T = (day <- timedelta_days 1 ;; datetime_add cand day)
    /\ (ordinal T < MAXORDINAL ->
        calculate_next_run s T =
        Ok (mkdatetime (ordinal T + 1) (decimal_value h) (decimal_value mi)
                       0 0)))) /\
  (fits_int mi = false \/ fits_int h = false ->
   calculate_next_run s T = Raise ValueError).
Proof.
  intros HT Hsplit Hne Hlk Hmi Hh Hm59 Hh23 cand.
  split; cycle 1.
  { intros Hlong. unfold calculate_next_run, next_run_every.
    rewrite Hne, Hlk. unfold next_run_cron. rewrite Hsplit.
    rewrite (literal_not_step _ Hmi), (literal_not_step _ Hh).
    rewrite (literal_isdigit _ Hmi), (literal_isdigit _ Hh).
    rewrite (int_literal_cases _ Hmi), (int_literal_cases _ Hh).
    cbn [andb].
    destruct (fits_int h); [|reflexivity].
    destruct (fits_int mi); [|reflexivity].
    destruct Hlong; discriminate. }
  intros Hfm Hfh.
  pose proof (decimal_value_nonneg _ Hmi) as Hm0.
  pose proof (decimal_value_nonneg _ Hh) as Hh0.
  assert (Hcand : datetime_ok cand = true).
  { pose proof HT as Hr. apply datetime_ok_spec in Hr.
    apply datetime_ok_spec. simpl. lia. }
  assert (Hcalc : calculate_next_run s T =
                  if datetime_le cand T
                  then day <- timedelta_days 1 ;; datetime_add cand day
                  else Ok cand).
  { unfold calculate_next_run, next_run_every. rewrite Hne, Hlk.
    apply (next_run_cron_literal s mi h d mo w T); assumption. }
  split; [exact Hcand|]. rewrite Hcalc. split.
  - intros Hlt. destruct (datetime_le cand T) eqn:Hle; [|reflexivity].
    apply (datetime_le_spec _ _ Hcand HT) in Hle. lia.
  - intros Hle. apply (datetime_le_spec _ _ Hcand HT) in Hle. rewrite Hle.
    split; [reflexivity|]. intros Hlast.
    change (timedelta_days 1) with (Ok (mktimedelta 1 0 0)). cbn [bind].
    apply (datetime_add_one_day cand Hcand Hlast).
Qed.

Lemma specific_time_rolls_over_witness :
  let T := datetime_of 2024 1 1 10 0 0 in
  datetime_ok T = true /\
  split "0 9 * * *" = ["0"; "9"; "*"; "*"; "*"] /\
  startswith "0 9 * * *" "@every" = false /\
  lookup "0 9 * * *" SHORTCUTS = None /\
  is_literal "0" = true /\ is_literal "9" = true /\
  decimal_value "0" <= 59 /\ decimal_value "9" <= 23 /\
  fits_int "0" = true /\ fits_int "9" = true /\
  calculate_next_run "0 9 * * *" T = Ok (datetime_of 2024 1 2 9 0 0).
Proof.
  intros T.
  assert (H59 : decimal_value "0" <= 59) by (vm_compute; discriminate).
  assert (H23 : decimal_value "9" <= 23) by (vm_compute; discriminate).
  repeat (split; [first [reflexivity | assumption]|]).
  pose proof (proj1 (specific_time_rolls_over
                       "0 9 * * *" "0" "9" "*" "*" "*" T
                       eq_refl eq_refl eq_refl eq_refl eq_refl eq_refl
                       H59 H23) eq_refl eq_refl)
    as (_ & _ & Hroll).
  apply Hroll; vm_compute; [discriminate | reflexivity].
Defined.

(** C2 as it was stated, for digits of any number, fails: a minute field
    of 4300 zeros and a 5 is decimal digits and denotes the minute 5, but
    [int] refuses its 4301 digits and the method raises [ValueError]. *)
Lemma specific_time_rolls_over_counterexample :
  let mi := String.concat "" (repeat "0" 4300) ++ "5" in
  let s := mi ++ " 9 * * *" in
  let T := datetime_of 2024 1 1 8 0 0 in
  datetime_ok T = true /\
  split s = [mi; "9"; "*"; "*"; "*"] /\
  startswith s "@every" = false /\ lookup s SHORTCUTS = None /\
  is_literal mi = true /\ is_literal "9" = true /\
  decimal_value mi = 5 /\ decimal_value "9" = 9 /\
  String.length mi = 4301%nat /\
  to_microseconds T < to_microseconds (datetime_of 2024 1 1 9 5 0) /\
  calculate_next_run s T = Raise ValueError /\
  calculate_next_run s T <> Ok (datetime_of 2024 1 1 9 5 0).
Proof.
  intros mi s T.
  assert (H : calculate_next_run s T = Raise ValueError)
    by (vm_compute; reflexivity).
  do 10 (split; [vm_compute; reflexivity|]).
  split; [exact H|]. rewrite H. discriminate.
Qed.

(** The two examples of the specification for [0 9 * * *]. *)
Example next_run_before_nine :
  calculate_next_run "0 9 * * *" (datetime_of 2024 1 1 8 0 0)
  = Ok (datetime_of 2024 1 1 9 0 0).
Proof. reflexivity. Qed.

Example next_run_after_nine :
  calculate_next_run "0 9 * * *" (datetime_of 2024 1 1 10 0 0)
  = Ok (datetime_of 2024 1 2 9 0 0).
Proof. reflexivity. Qed.

(** ** Leading white space *)

(** C8. [calculate_next_run] does not trim its argument and
    [parse_schedule] does. With a blank in front, [" @daily"] gets the
    fallback of one hour after the reference time [T], while the trimmed
    string ["@daily"] gets the next midnight; the two differ unless [T] is
    23:00:00 sharp, although the two strings have the same description.
    So there are a string and a reference time for which the next run of
    the string and of the trimmed string differ. *)
Theorem next_run_does_not_trim (T : datetime) :
  datetime_ok T = true -> ordinal T < MAXORDINAL ->
  let s := " @daily" in
  strip s = "@daily" /\
  parse_schedule s = parse_schedule (strip s) /\
  calculate_next_run s T = fallback T /\
  (exists r, calculate_next_run s T = Ok r /\
             to_microseconds r = to_microseconds T + 3600000000) /\
  calculate_next_run (strip s) T = Ok (mkdatetime (ordinal T + 1) 0 0 0 0) /\
  (hour T <> 23 \/ minute T <> 0 \/ second T <> 0 \/ microsecond T <> 0 ->
   calculate_next_run s T <> calculate_next_run (strip s) T) /\
  (exists s' T', datetime_ok T' = true /\
                 calculate_next_run s' T' <> calculate_next_run (strip s') T' /\
                 parse_schedule s' = parse_schedule (strip s')).
Proof.
  intros HT Hlast s.
  assert (Hfb : calculate_next_run s T = fallback T)
    by apply blank_daily_falls_back.
  assert (Hmid : calculate_next_run (strip s) T
                 = Ok (mkdatetime (ordinal T + 1) 0 0 0 0))
    by apply (daily_is_next_midnight T HT Hlast).
  destruct (fallback_spec T HT) as [Hval Hret].
  destruct Hret as [r Hr].
  { pose proof HT as H. apply datetime_ok_spec in H.
    unfold to_microseconds, datetime_end, MAXORDINAL in *. lia. }
  destruct (Hval r Hr) as [_ Hsum].
  split; [reflexivity|]. split; [reflexivity|]. split; [exact Hfb|].
  split; [exists r; rewrite Hfb; auto|]. split; [exact Hmid|]. split.
  - intros Hne Heq. rewrite Hfb, Hr, Hmid in Heq. inversion Heq; subst r.
    apply datetime_ok_spec in HT.
    unfold to_microseconds in Hsum. simpl in Hsum. lia.
  - exists " @daily", (datetime_of 2024 1 1 10 0 0).
    split; [reflexivity|]. split; [discriminate | reflexivity].
Qed.

Lemma next_run_does_not_trim_witness :
  let T := datetime_of 2024 1 1 10 0 0 in
  datetime_ok T = true /\ ordinal T < MAXORDINAL /\
  calculate_next_run " @daily" T = Ok (datetime_of 2024 1 1 11 0 0) /\
  calculate_next_run (strip " @daily") T = Ok (datetime_of 2024 1 2 0 0 0) /\
  calculate_next_run " @daily" T <> calculate_next_run (strip " @daily") T.
Proof.
  intros T.
  assert (Hlast : ordinal T < MAXORDINAL) by reflexivity.
  assert (Hne : hour T <> 23 \/ minute T <> 0 \/ second T <> 0
                \/ microsecond T <> 0) by (left; discriminate).
  pose proof (next_run_does_not_trim T eq_refl Hlast)
    as (_ & _ & Hfb & _ & Hmid & Hdiff & _).
  split; [reflexivity|]. split; [exact Hlast|].
  split; [exact Hfb|]. split; [exact Hmid|]. exact (Hdiff Hne).
Defined.

(** ** The cascade of [_describe_standard_cron] *)

Lemma head_not_at (c : ascii) (r : string) :
  Ascii.eqb "@" c = false ->
  lookup (String c r) SHORTCUTS = None /\
  startswith (String c r) "@every" = false /\
  startswith (String c r) "@random" = false.
Proof.
  intros Hat. split; [|split].
  - apply not_at_not_shortcut.
    change (startswith (String c r) "@") with (Ascii.eqb "@" c && true).
    rewrite Hat. reflexivity.
  - change (startswith (String c r) "@every")
      with (Ascii.eqb "@" c && startswith r "every").
    rewrite Hat. reflexivity.
  - change (startswith (String c r) "@random")
      with (Ascii.eqb "@" c && startswith r "random").
    rewrite Hat. reflexivity.
Qed.

(** A string whose first field does not start with the at sign is
    described as standard cron. *)
Lemma plain_minute_is_standard (s mi : string) (fs : list string) :
  split s = mi :: fs -> startswith mi "@" = false ->
  parse_schedule s = _describe_standard_cron (strip s).
Proof.
  intros Hs Hat. rewrite <- split_strip in Hs.
  destruct (trimmed_field_head _ _ _ Hs) as (c & r & mi' & Hstrip & ->).
  change (startswith (String c mi') "@") with (Ascii.eqb "@" c && true) in Hat.
  rewrite andb_true_r in Hat.
  unfold parse_schedule. rewrite Hstrip.
  destruct (head_not_at c r Hat) as (-> & -> & ->). reflexivity.
Qed.

Lemma is_concrete_spec (f : string) :
  is_concrete f = true <->
  f <> "*" /\ startswith f "*/" = false /\ startswith f "@" = false.
Proof.
  unfold is_concrete.
  rewrite !andb_true_iff, !negb_true_iff, String.eqb_neq. tauto.
Qed.

(** A literal integer is a literal value. *)
Lemma literal_is_concrete (f : string) :
  is_literal f = true -> is_concrete f = true.
Proof.
  intros Hl. apply is_concrete_spec. split; [|split].
  - intros ->. discriminate.
  - apply literal_not_step, Hl.
  - apply is_literal_spec in Hl as [Hne Hall].
    destruct f as [|c r]; [discriminate|]. cbn [forall_chars] in Hall.
    apply andb_true_iff in Hall as [Hc _].
    change (startswith (String c r) "@") with (Ascii.eqb "@" c && true).
    rewrite Ascii.eqb_sym, (decimal_neq c "@" Hc eq_refl). reflexivity.
Qed.

Lemma zfill_step (h : string) : startswith h "*/" = true -> zfill 2 h = h.
Proof. intros H. apply startswith_inv in H as [r ->]. reflexivity. Qed.

(** C9. For every string of five fields whose minute field is a literal
    value other than [*] and [0] (a literal integer for one), whose hour
    field starts with [*/] and whose day, month and weekday are [*] (as in
    [30 */2 * * *]), the description is [Daily at], the hour field as it
    stands, a colon, and the minute field padded to two characters: the
    hour-step rule wants the minute [0], and the daily rule only wants the
    two fields to differ from [*]. *)
Theorem step_hour_described_as_daily (s mi h : string) :
  split s = [mi; h; "*"; "*"; "*"] ->
  is_concrete mi = true -> mi <> "0" -> startswith h "*/" = true ->
  parse_schedule s = Ok ("Daily at " ++ h ++ ":" ++ zfill 2 mi).
Proof.
  intros Hs Hl H0 Hh. apply is_concrete_spec in Hl as (Hstar & Hstep & Hat).
  rewrite (plain_minute_is_standard s mi _ Hs Hat).
  unfold _describe_standard_cron. rewrite split_strip, Hs.
  apply String.eqb_neq in Hstar, H0.
  assert (Hhs : (h =? "*")%string = false).
  { apply String.eqb_neq. intros ->. discriminate. }
  rewrite Hstar, Hstep, Hh, H0, Hhs.
  rewrite (zfill_step h Hh). reflexivity.
Qed.

Lemma step_hour_described_as_daily_witness :
  split "30 */2 * * *" = ["30"; "*/2"; "*"; "*"; "*"] /\
  is_concrete "30" = true /\ "30" <> "0" /\ startswith "*/2" "*/" = true /\
  parse_schedule "30 */2 * * *" = Ok "Daily at */2:30".
Proof.
  assert (Hne : "30" <> "0") by discriminate.
  split; [reflexivity|]. split; [reflexivity|]. split; [exact Hne|].
  split; [reflexivity|].
  exact (step_hour_described_as_daily "30 */2 * * *" "30" "*/2"
           eq_refl eq_refl Hne eq_refl).
Defined.

(** A trimmed string that is no shortcut key and starts with neither
    [@every] nor [@random] is described as standard cron. *)
Lemma parse_schedule_standard (s : string) :
  strip s = s -> lookup s SHORTCUTS = None ->
  startswith s "@every" = false -> startswith s "@random" = false ->
  parse_schedule s = _describe_standard_cron s.
Proof.
  intros Hs Hl He Hr. unfold parse_schedule. rewrite Hs, Hl, He, Hr.
  reflexivity.
Qed.

(** The cascade, rule by rule, wherever [int] reads the step. The rules
    (b), (c) and (d) pass the text after [*/] to [int]: the sentence is
    produced when [int] returns, and the exception of [int] is the outcome
    when it raises. *)
Lemma describe_cascade (s mi h d mo w : string) :
  split s = [mi; h; d; mo; w] ->
  let out := _describe_standard_cron s in
  let step (x unit : string) :=
    n <- int x ;; Ok ("Every " ++ x ++ " " ++ unit ++ plural n) in
  (mi = "*" -> h = "*" -> out = Ok "Every minute") /\
  (forall x, mi = "*/" ++ x -> out = step x "minute") /\
  (forall x, mi = "0" -> h = "*/" ++ x -> out = step x "hour") /\
  (forall x, mi = "0" -> h = "0" -> d = "*/" ++ x -> out = step x "day") /\
  (startswith mi "*/" = false ->
   startswith h "*/" && (mi =? "0")%string = false ->
   mi <> "*" -> h <> "*" -> mo = "*" -> w = "*" ->
   (d = "*" -> out = Ok ("Daily at " ++ zfill 2 h ++ ":" ++ zfill 2 mi)) /\
   (d <> "*" ->
    startswith d "*/" && (mi =? "0")%string && (h =? "0")%string = false ->
    out = Ok ("Monthly on day " ++ d ++ " at " ++ zfill 2 h ++ ":"
              ++ zfill 2 mi))).
Proof.
  intros Hs out step. unfold out, step, _describe_standard_cron. rewrite Hs.
  split; [|split; [|split; [|split]]].
  - intros -> ->. reflexivity.
  - intros x ->.
    change (startswith ("*/" ++ x) "*/") with true.
    change (slice_from 2 ("*/" ++ x)) with x.
    change (("*/" ++ x =? "*")%string) with false.
    cbn [andb]. destruct (int x); reflexivity.
  - intros x -> ->.
    change (startswith ("*/" ++ x) "*/") with true.
    change (slice_from 2 ("*/" ++ x)) with x.
    cbn. destruct (int x); reflexivity.
  - intros x -> -> ->.
    change (startswith ("*/" ++ x) "*/") with true.
    change (slice_from 2 ("*/" ++ x)) with x.
    cbn. destruct (int x); reflexivity.
  - intros Hb Hc Hmi Hh -> ->.
    apply String.eqb_neq in Hmi, Hh. rewrite Hmi, Hb, Hc, Hh.
    cbn [andb negb]. split.
    + intros ->. reflexivity.
    + intros Hd Hdr. apply String.eqb_neq in Hd. rewrite Hdr, Hd.
      reflexivity.
Qed.

(** A string that is not of five fields is reported as it is. *)
Lemma describe_invalid (s : string) :
  List.length (split s) <> 5%nat ->
  _describe_standard_cron s = Ok ("Invalid cron syntax: " ++ s).
Proof.
  unfold _describe_standard_cron.
  destruct (split s) as [|a [|b [|c [|d [|e [|f l]]]]]]; simpl; intros H;
    try reflexivity.
  contradiction.
Qed.

(** Five fields that no rule takes are echoed. *)
Lemma describe_fallback (s mi h d mo w : string) :
  split s = [mi; h; d; mo; w] ->
  (mi =? "*")%string && (h =? "*")%string = false ->
  startswith mi "*/" = false ->
  startswith h "*/" && (mi =? "0")%string = false ->
  startswith d "*/" && (mi =? "0")%string && (h =? "0")%string = false ->
  mi = "*" \/ h = "*" \/ mo <> "*" \/ w <> "*" ->
  _describe_standard_cron s = Ok ("Cron: " ++ s).
Proof.
  intros Hs Ha Hb Hc Hd Hg. unfold _describe_standard_cron.
  rewrite Hs, Ha, Hb, Hc, Hd.
  destruct Hg as [-> | [-> | [Hg | Hg]]].
  - reflexivity.
  - rewrite !andb_false_r. reflexivity.
  - apply String.eqb_neq in Hg. rewrite Hg, !andb_false_r. reflexivity.
  - apply String.eqb_neq in Hg. rewrite Hg, !andb_false_r. reflexivity.
Qed.

(** The examples of the specification. *)
Example describe_examples :
  map parse_schedule
      ["*/5 * * * *"; "*/1 * * * *"; "0 2 * * *"; "30 14 15 * *";
       "1 2 3 4 5"; "a b c"; "@every 2m"; "@every 1h"; "@every garbage";
       "@random anything"; "* * * * *"; "@every 1h30m"]
  = map Ok
      ["Every 5 minutes"; "Every 1 minute"; "Daily at 02:00";
       "Monthly on day 15 at 14:30"; "Cron: 1 2 3 4 5";
       "Invalid cron syntax: a b c"; "Every 2 minutes"; "Every 1 hour";
       "Invalid @every syntax"; "Random (varies per container start)";
       "Every minute"; "Every 1 hour"].
Proof. reflexivity. Qed.

(** C3 (violated by the code). The count of fields and the order of the
    rules are as the claim has them, see [describe_cascade]; but each of
    the rules (b), (c) and (d) converts the text after [*/] with [int]
    while it builds its sentence, and on a step that is not a number the
    method raises [ValueError] where the claim has it give a sentence. *)
Theorem cascade_step_rules_raise :
  let trimmed_standard s :=
    strip s = s /\ lookup s SHORTCUTS = None /\
    startswith s "@every" = false /\ startswith s "@random" = false in
  (trimmed_standard "*/x * * * *" /\
   split "*/x * * * *" = ["*/x"; "*"; "*"; "*"; "*"] /\
   parse_schedule "*/x * * * *" = Raise ValueError) /\
  (trimmed_standard "0 */x * * *" /\
   split "0 */x * * *" = ["0"; "*/x"; "*"; "*"; "*"] /\
   parse_schedule "0 */x * * *" = Raise ValueError) /\
  (trimmed_standard "0 0 */x * *" /\
   split "0 0 */x * *" = ["0"; "0"; "*/x"; "*"; "*"] /\
   parse_schedule "0 0 */x * *" = Raise ValueError).
Proof. repeat split. Qed.

(* ================================================================== *)
(** * Further properties of [cron_parser.py] *)

(** ** Five plain fields in [calculate_next_run] *)

Lemma first_field_at (s mi : string) (fs : list string) :
  startswith s "@" = true -> split s = mi :: fs -> startswith mi "@" = true.
Proof.
  intros Hat Hs. apply startswith_inv in Hat as [r ->].
  destruct (split_head "@" r mi fs eq_refl Hs) as [f' ->]. reflexivity.
Qed.

(** A string whose first field does not start with the at sign is neither a
    shortcut key nor an [@every] form: the method goes to the fields. *)
Lemma calculate_next_run_plain (s mi : string) (fs : list string)
      (T : datetime) :
  split s = mi :: fs -> startswith mi "@" = false ->
  calculate_next_run s T = next_run_cron s T.
Proof.
  intros Hs Hmi.
  assert (Hat : startswith s "@" = false).
  { destruct (startswith s "@") eqn:H; [|reflexivity].
    rewrite (first_field_at s mi fs H Hs) in Hmi. discriminate. }
  assert (Hev : startswith s "@every" = false).
  { destruct (startswith s "@every") eqn:H; [|reflexivity].
    apply startswith_inv in H as [r ->]. discriminate. }
  unfold calculate_next_run, next_run_every.
  rewrite Hev, (not_at_not_shortcut s Hat). reflexivity.
Qed.

Lemma replace_seconds (t : datetime) :
  datetime_ok t = true ->
  replace t None None (Some 0) (Some 0) =
  Ok (mkdatetime (ordinal t) (hour t) (minute t) 0 0).
Proof.
  intros Ht. apply (replace_ok t None None (Some 0) (Some 0)).
  apply datetime_ok_spec in Ht. apply datetime_ok_spec. simpl. lia.
Qed.

Lemma replace_minute (t : datetime) (m : Z) :
  datetime_ok t = true -> 0 <= m <= 59 ->
  replace t None (Some m) (Some 0) (Some 0) =
  Ok (mkdatetime (ordinal t) (hour t) m 0 0).
Proof.
  intros Ht Hm. apply (replace_ok t None (Some m) (Some 0) (Some 0)).
  apply datetime_ok_spec in Ht. apply datetime_ok_spec. simpl. lia.
Qed.

(** A minute above 59 is refused: with [ValueError] by the constructor's
    check when it fits a C [int], with [OverflowError] by the conversion of
    the argument when it does not. *)
Lemma replace_minute_refused (t : datetime) (m : Z) :
  59 < m ->
  replace t None (Some m) (Some 0) (Some 0) =
  Raise (if m <? 2147483648 then ValueError else OverflowError).
Proof.
  intros Hm. unfold replace. cbn [c_int default andb].
  change (in_range (-2147483648) 2147483647 0) with true.
  rewrite !andb_true_r.
  destruct (Z.ltb_spec m 2147483648) as [Hlt | Hge].
  - replace (in_range (-2147483648) 2147483647 m) with true
      by (symmetry; apply in_range_spec; lia).
    replace (datetime_ok _) with false; [reflexivity|].
    symmetry. apply not_true_iff_false. intros H.
    apply datetime_ok_spec in H. simpl in H. lia.
  - replace (in_range (-2147483648) 2147483647 m) with false; [reflexivity|].
    symmetry. apply not_true_iff_false. intros H.
    apply in_range_spec in H. lia.
Qed.

Lemma datetime_range (t : datetime) :
  datetime_ok t = true ->
  86400000000 <= to_microseconds t < datetime_end.
Proof.
  intros H. apply datetime_ok_spec in H.
  unfold to_microseconds, datetime_end, MAXORDINAL in *. lia.
Qed.

(** X1. The day, month and weekday fields play no part in the next run: two
    schedules of five fields with the same minute and hour fields get the
    same next run, whatever their other three fields are. *)
Theorem next_run_ignores_day_month_weekday
        (s s' mi h d mo w d' mo' w' : string) (T : datetime) :
  split s = [mi; h; d; mo; w] -> split s' = [mi; h; d'; mo'; w'] ->
  startswith mi "@" = false ->
  calculate_next_run s T = calculate_next_run s' T.
Proof.
  intros Hs Hs' Hmi.
  rewrite (calculate_next_run_plain s mi _ T Hs Hmi).
  rewrite (calculate_next_run_plain s' mi _ T Hs' Hmi).
  unfold next_run_cron. rewrite Hs, Hs'. reflexivity.
Qed.

Lemma next_run_ignores_day_month_weekday_witness :
  split "0 9 1 1 *" = ["0"; "9"; "1"; "1"; "*"] /\
  split "0 9 * * *" = ["0"; "9"; "*"; "*"; "*"] /\
  startswith "0" "@" = false /\
  calculate_next_run "0 9 1 1 *" (datetime_of 2024 3 5 10 0 0) =
  calculate_next_run "0 9 * * *" (datetime_of 2024 3 5 10 0 0).
Proof.
  split; [reflexivity|]. split; [reflexivity|]. split; [reflexivity|].
  exact (next_run_ignores_day_month_weekday "0 9 1 1 *" "0 9 * * *"
           "0" "9" "1" "1" "*" "*" "*" "*" (datetime_of 2024 3 5 10 0 0)
           eq_refl eq_refl eq_refl).
Defined.

(** X2. A step [*/N] in the minute field, [N] a literal integer of at most
    4300 digits (a longer one is refused by [int]): the next run is the
    reference time plus [N] minutes, cut down to the whole minute.
    It is returned whenever the sum is not after [datetime.max], and it is
    strictly after the reference time when [N] is at least 1. *)
Theorem step_minute_next_run (s N h d mo w : string) (T : datetime) :
  datetime_ok T = true ->
  split s = ["*/" ++ N; h; d; mo; w] -> is_literal N = true ->
  fits_int N = true ->
  let n := decimal_value N in
  (forall r, calculate_next_run s T = Ok r ->
     datetime_ok r = true /\ second r = 0 /\ microsecond r = 0 /\
     to_microseconds r =
     to_microseconds T + n * 60000000
     - (second T * 1000000 + microsecond T) /\
     (1 <= n -> to_microseconds T < to_microseconds r)) /\
  (to_microseconds T + n * 60000000 < datetime_end ->
   returns (calculate_next_run s T)).
Proof.
  intros HT Hs HN HfN n.
  pose proof (decimal_value_nonneg N HN) as Hn0. fold n in Hn0.
  pose proof (datetime_range T HT) as HTr.
  rewrite (calculate_next_run_plain s ("*/" ++ N) _ T Hs eq_refl).
  unfold next_run_cron. rewrite Hs.
  change (startswith ("*/" ++ N) "*/") with true.
  change (slice_from 2 ("*/" ++ N)) with N.
  rewrite (int_literal N HN HfN). fold n. cbn [bind].
  split.
  - intros r Hr.
    destruct (timedelta_minutes n) as [td|e] eqn:Htd; [|discriminate].
    cbn [bind] in Hr.
    destruct (datetime_add T td) as [nr|e] eqn:Hadd; [|discriminate].
    cbn [bind] in Hr.
    apply mk_timedelta_spec in Htd as (Htot & Hus & Hsec).
    destruct (datetime_add_spec _ _ _ Hadd) as [Hok Hsum].
    destruct (datetime_add_keeps_seconds _ _ _ HT Hus Hsec Hadd) as [Hs1 Hs2].
    rewrite (replace_seconds nr Hok) in Hr. inversion Hr; subst r; clear Hr.
    pose proof Hok as Hb. apply datetime_ok_spec in Hb.
    pose proof HT as HTb. apply datetime_ok_spec in HTb.
    assert (Hval : to_microseconds (mkdatetime (ordinal nr) (hour nr)
                                               (minute nr) 0 0)
                   = to_microseconds T + n * 60000000
                     - (second T * 1000000 + microsecond T)).
    { rewrite <- Hs1, <- Hs2. unfold to_microseconds in *. simpl. lia. }
    split; [apply datetime_ok_spec; simpl; lia|].
    split; [reflexivity|]. split; [reflexivity|]. split; [exact Hval|].
    intros H1. rewrite Hval. lia.
  - intros Hlt.
    destruct (mk_timedelta_returns 0 0 n) as [td Htd].
    { unfold datetime_end, MAXORDINAL in *.
      change ((3652059 + 1) * 86400000000 / 1000000) with 315537984000. lia. }
    { lia. }
    unfold timedelta_minutes. rewrite Htd. cbn [bind].
    pose proof (mk_timedelta_spec _ _ _ _ Htd) as (Htot & _ & _).
    destruct (datetime_add_returns T td HT) as [nr Hadd]; [lia|].
    rewrite Hadd. cbn [bind].
    destruct (datetime_add_spec _ _ _ Hadd) as [Hok _].
    rewrite (replace_seconds nr Hok). eexists. reflexivity.
Qed.

Lemma step_minute_next_run_witness :
  datetime_ok (datetime_of 2024 1 1 10 58 30) = true /\
  split "*/5 * * * *" = ["*/" ++ "5"; "*"; "*"; "*"; "*"] /\
  is_literal "5" = true /\ fits_int "5" = true /\
  returns (calculate_next_run "*/5 * * * *" (datetime_of 2024 1 1 10 58 30)).
Proof.
  split; [reflexivity|]. split; [reflexivity|]. split; [reflexivity|].
  split; [reflexivity|].
  apply (step_minute_next_run "*/5 * * * *" "5" "*" "*" "*" "*"
           (datetime_of 2024 1 1 10 58 30) eq_refl eq_refl eq_refl eq_refl).
  reflexivity.
Defined.

(** X3. A step [*/N] in the hour field with a literal minute [m], both of at
    most 4300 digits: the next run is the reference time plus [N] hours with
    its minute set to [m] and its seconds cut, so it is strictly after the
    reference time when [N] is at least 1. A minute field above 59 passes
    [isdigit] and is refused by [datetime.replace]: the method raises
    [ValueError] when the minute is below 2^31, and [OverflowError] when it
    is not, the argument then not fitting a C [int]. *)
Theorem step_hour_next_run (s m N d mo w : string) (T : datetime) :
  datetime_ok T = true ->
  split s = [m; "*/" ++ N; d; mo; w] ->
  is_literal m = true -> is_literal N = true ->
  fits_int m = true -> fits_int N = true ->
  let n := decimal_value N in
  let vm := decimal_value m in
  (vm <= 59 ->
   forall r, calculate_next_run s T = Ok r ->
     datetime_ok r = true /\ minute r = vm /\ second r = 0 /\
     microsecond r = 0 /\
     to_microseconds r =
     to_microseconds T + n * 3600000000
     - (minute T * 60000000 + second T * 1000000 + microsecond T)
     + vm * 60000000 /\
     (1 <= n -> to_microseconds T < to_microseconds r)) /\
  (to_microseconds T + n * 3600000000 < datetime_end ->
   if vm <=? 59 then returns (calculate_next_run s T)
   else calculate_next_run s T =
        Raise (if vm <? 2147483648 then ValueError else OverflowError)).
Proof.
  intros HT Hs Hm HN Hfm HfN n vm.
  pose proof (decimal_value_nonneg N HN) as Hn0. fold n in Hn0.
  pose proof (decimal_value_nonneg m Hm) as Hm0. fold vm in Hm0.
  pose proof (datetime_range T HT) as HTr.
  pose proof (literal_is_concrete m Hm) as Hc.
  apply is_concrete_spec in Hc as (_ & Hstep & Hat).
  rewrite (calculate_next_run_plain s m _ T Hs Hat).
  unfold next_run_cron. rewrite Hs, Hstep.
  change (startswith ("*/" ++ N) "*/") with true.
  change (slice_from 2 ("*/" ++ N)) with N.
  rewrite (literal_isdigit m Hm), (int_literal N HN HfN),
    (int_literal m Hm Hfm).
  fold n vm. cbn [andb bind].
  split.
  - intros Hvm r Hr.
    destruct (timedelta_hours n) as [td|e] eqn:Htd; [|discriminate].
    cbn [bind] in Hr.
    destruct (datetime_add T td) as [nr|e] eqn:Hadd; [|discriminate].
    cbn [bind] in Hr.
    apply mk_timedelta_spec in Htd as (Htot & Hus & Hsec).
    destruct (datetime_add_spec _ _ _ Hadd) as [Hok Hsum].
    rewrite (replace_minute nr vm Hok) in Hr by lia.
    inversion Hr; subst r; clear Hr.
    pose proof Hok as Hb. apply datetime_ok_spec in Hb.
    pose proof HT as HTb. apply datetime_ok_spec in HTb.
    rewrite Htot in Hsum.
    assert (Hval : to_microseconds (mkdatetime (ordinal nr) (hour nr) vm 0 0)
                   = to_microseconds T + n * 3600000000
                     - (minute T * 60000000 + second T * 1000000
                        + microsecond T)
                     + vm * 60000000).
    { unfold to_microseconds in *. simpl. lia. }
    split; [apply datetime_ok_spec; simpl; lia|].
    split; [reflexivity|]. split; [reflexivity|]. split; [reflexivity|].
    split; [exact Hval|]. intros H1. rewrite Hval. lia.
  - intros Hlt.
    destruct (mk_timedelta_returns 0 n 0) as [td Htd].
    { unfold datetime_end, MAXORDINAL in *.
      change ((3652059 + 1) * 86400000000 / 1000000) with 315537984000. lia. }
    { lia. }
    unfold timedelta_hours. rewrite Htd. cbn [bind].
    pose proof (mk_timedelta_spec _ _ _ _ Htd) as (Htot & _ & _).
    destruct (datetime_add_returns T td HT) as [nr Hadd]; [lia|].
    rewrite Hadd. cbn [bind].
    destruct (datetime_add_spec _ _ _ Hadd) as [Hok _].
    destruct (Z.leb_spec vm 59) as [Hle | Hgt].
    + rewrite (replace_minute nr vm Hok) by lia. eexists. reflexivity.
    + apply replace_minute_refused. exact Hgt.
Qed.

Lemma step_hour_next_run_witness :
  datetime_ok (datetime_of 2024 1 1 10 58 30) = true /\
  split "15 */2 * * *" = ["15"; "*/" ++ "2"; "*"; "*"; "*"] /\
  is_literal "15" = true /\ is_literal "2" = true /\
  fits_int "15" = true /\ fits_int "2" = true /\
  returns (calculate_next_run "15 */2 * * *" (datetime_of 2024 1 1 10 58 30)).
Proof.
  split; [reflexivity|]. split; [reflexivity|]. split; [reflexivity|].
  split; [reflexivity|]. split; [reflexivity|]. split; [reflexivity|].
  apply (proj2 (step_hour_next_run "15 */2 * * *" "15" "2" "*" "*" "*"
                  (datetime_of 2024 1 1 10 58 30)
                  eq_refl eq_refl eq_refl eq_refl eq_refl eq_refl)).
  reflexivity.
Defined.

(** X4. A literal minute and hour in range, each of at most 4300 digits: the
    next run, when it is returned, is at that hour and minute, strictly
    after the reference time and at most one day after it; it is returned
    unless the reference time is on the last day of [datetime]. *)
Theorem specific_time_within_a_day (s mi h d mo w : string) (T : datetime) :
  datetime_ok T = true ->
  split s = [mi; h; d; mo; w] ->
  is_literal mi = true -> is_literal h = true ->
  fits_int mi = true -> fits_int h = true ->
  decimal_value mi <= 59 -> decimal_value h <= 23 ->
  (forall r, calculate_next_run s T = Ok r ->
     datetime_ok r = true /\
     hour r = decimal_value h /\ minute r = decimal_value mi /\
     second r = 0 /\ microsecond r = 0 /\
     to_microseconds T < to_microseconds r <=
     to_microseconds T + 86400000000) /\
  (ordinal T < MAXORDINAL -> returns (calculate_next_run s T)).
Proof.
  intros HT Hs Hmi Hh Hfmi Hfh Hm59 Hh23.
  pose proof (decimal_value_nonneg _ Hmi) as Hm0.
  pose proof (decimal_value_nonneg _ Hh) as Hh0.
  pose proof (literal_is_concrete mi Hmi) as Hc.
  apply is_concrete_spec in Hc as (_ & _ & Hat).
  rewrite (calculate_next_run_plain s mi _ T Hs Hat).
  rewrite (next_run_cron_literal s mi h d mo w T HT Hs Hmi Hh Hfmi Hfh
             Hm59 Hh23).
  set (cand := mkdatetime (ordinal T) (decimal_value h) (decimal_value mi) 0 0).
  assert (Hcand : datetime_ok cand = true).
  { pose proof HT as Hr. apply datetime_ok_spec in Hr.
    apply datetime_ok_spec. simpl. lia. }
  pose proof HT as HTb. apply datetime_ok_spec in HTb.
  change (timedelta_days 1) with (Ok (mktimedelta 1 0 0)). cbn [bind].
  destruct (datetime_le cand T) eqn:Hle.
  - apply (datetime_le_spec _ _ Hcand HT) in Hle. split.
    + intros r Hr. destruct (datetime_add_spec _ _ _ Hr) as [Hok Hsum].
      pose proof (datetime_range r Hok) as Hrr.
      assert (Hlast : ordinal cand < MAXORDINAL).
      { unfold to_microseconds, td_total, datetime_end, MAXORDINAL, cand in *.
        simpl in *. lia. }
      rewrite (datetime_add_one_day cand Hcand Hlast) in Hr.
      inversion Hr; subst r; clear Hr. simpl.
      repeat split; try reflexivity; try exact Hok;
        unfold to_microseconds, td_total, cand in *; simpl in *; lia.
    + intros Hlast. rewrite (datetime_add_one_day cand Hcand Hlast).
      eexists. reflexivity.
  - split; [|intros _; eexists; reflexivity].
    intros r Hr. inversion Hr; subst r; clear Hr.
    assert (Hgt : to_microseconds T < to_microseconds cand).
    { destruct (Z.lt_ge_cases (to_microseconds T) (to_microseconds cand))
        as [H | H]; [exact H|].
      apply (datetime_le_spec _ _ Hcand HT) in H. congruence. }
    repeat split; try reflexivity; try exact Hcand; try exact Hgt.
    unfold to_microseconds, cand in *. simpl in *. lia.
Qed.

Lemma specific_time_within_a_day_witness :
  let T := datetime_of 2024 1 1 10 0 0 in
  datetime_ok T = true /\
  split "0 9 * * *" = ["0"; "9"; "*"; "*"; "*"] /\
  is_literal "0" = true /\ is_literal "9" = true /\
  fits_int "0" = true /\ fits_int "9" = true /\
  decimal_value "0" <= 59 /\ decimal_value "9" <= 23 /\
  returns (calculate_next_run "0 9 * * *" T).
Proof.
  intros T.
  assert (H59 : decimal_value "0" <= 59) by (vm_compute; discriminate).
  assert (H23 : decimal_value "9" <= 23) by (vm_compute; discriminate).
  repeat (split; [first [reflexivity | assumption]|]).
  apply (proj2 (specific_time_within_a_day "0 9 * * *" "0" "9" "*" "*" "*" T
                  eq_refl eq_refl eq_refl eq_refl eq_refl eq_refl H59 H23)).
  reflexivity.
Defined.

(** ** The shortcuts in [calculate_next_run] *)

Lemma midnight_cron (s d mo w : string) (T : datetime) :
  split s = ["0"; "0"; d; mo; w] ->
  datetime_ok T = true -> ordinal T < MAXORDINAL ->
  next_run_cron s T = Ok (mkdatetime (ordinal T + 1) 0 0 0 0).
Proof.
  intros Hs HT Hlast.
  rewrite (next_run_cron_literal s "0" "0" d mo w T HT Hs eq_refl eq_refl
             eq_refl eq_refl)
    by (vm_compute; discriminate).
  change (decimal_value "0") with 0.
  assert (Hcand : datetime_ok (mkdatetime (ordinal T) 0 0 0 0) = true).
  { pose proof HT as Hr. apply datetime_ok_spec in Hr.
    apply datetime_ok_spec. simpl. lia. }
  assert (Hle : datetime_le (mkdatetime (ordinal T) 0 0 0 0) T = true).
  { apply (datetime_le_spec _ _ Hcand HT).
    apply datetime_ok_spec in HT. unfold to_microseconds. simpl. lia. }
  rewrite Hle. change (timedelta_days 1) with (Ok (mktimedelta 1 0 0)).
  cbn [bind]. apply (datetime_add_one_day _ Hcand Hlast).
Qed.

(** X5. The next run of a shortcut key. [@yearly], [@annually], [@monthly],
    [@weekly], [@daily] and [@midnight] all get the midnight that follows
    the reference time, since the day, month and weekday of their expansion
    are not looked at; [@hourly] expands to an hour field [*], which is no
    modelled shape, and gets the fallback of one hour after the reference
    time, not the top of the next hour. *)
Theorem shortcut_next_run (k v : string) (T : datetime) :
  lookup k SHORTCUTS = Some v ->
  datetime_ok T = true -> ordinal T < MAXORDINAL ->
  calculate_next_run k T =
  if (k =? "@hourly")%string then fallback T
  else Ok (mkdatetime (ordinal T + 1) 0 0 0 0).
Proof.
  intros Hl HT Hlast. apply lookup_in in Hl. simpl in Hl.
  destruct Hl as [H | [H | [H | [H | [H | [H | [H | []]]]]]]];
    inversion H; subst k v; clear H;
    match goal with
    | |- calculate_next_run "@hourly" _ = _ => reflexivity
    | |- calculate_next_run ?key _ = _ =>
        let cron := eval vm_compute in
                    (match lookup key SHORTCUTS with
                     | Some c => c
                     | None => ""
                     end) in
        change (calculate_next_run key T) with (next_run_cron cron T);
        cbn [String.eqb Ascii.eqb Bool.eqb];
        eapply midnight_cron; [reflexivity | exact HT | exact Hlast]
    end.
Qed.

Lemma shortcut_next_run_witness :
  let T := datetime_of 2024 3 5 10 20 30 in
  lookup "@weekly" SHORTCUTS = Some "0 0 * * 0" /\
  datetime_ok T = true /\ ordinal T < MAXORDINAL /\
  calculate_next_run "@weekly" T = Ok (datetime_of 2024 3 6 0 0 0).
Proof.
  intros T.
  assert (Hlast : ordinal T < MAXORDINAL) by reflexivity.
  split; [reflexivity|]. split; [reflexivity|]. split; [exact Hlast|].
  exact (shortcut_next_run "@weekly" "0 0 * * 0" T eq_refl eq_refl Hlast).
Defined.

(** ** Text after the first [@every] token *)

Lemma rstrip_app_tail (p rest : string) (u : ascii) :
  isspace u = false ->
  rstrip (p ++ String u rest) = p ++ String u (rstrip rest).
Proof.
  intros Hu. induction p as [|c p IH]; simpl.
  - rewrite Hu, andb_false_r. reflexivity.
  - rewrite IH, is_empty_app. simpl. rewrite andb_false_r. reflexivity.
Qed.

Lemma unit_is_not_space (u : ascii) : is_unit u = true -> isspace u = false.
Proof.
  intros H. destruct (is_unit_cases u H) as [-> | [-> | ->]]; reflexivity.
Qed.

Lemma strip_every (ds rest : string) (u : ascii) :
  is_unit u = true ->
  strip ("@every " ++ ds ++ String u rest) =
  "@every " ++ ds ++ String u (rstrip rest).
Proof.
  intros Hu. unfold strip.
  change (lstrip ("@every " ++ ds ++ String u rest))
    with ("@every " ++ ds ++ String u rest).
  rewrite <- (app_assoc "@every " ds (String u rest)).
  rewrite (rstrip_app_tail _ _ _ (unit_is_not_space u Hu)).
  apply app_assoc.
Qed.

(** On [@every <digits><unit>], whatever follows, [parse_schedule] gives the
    exception of [int] on the digits, or the sentence of their number. *)
Lemma parse_schedule_every_token (ds rest : string) (u : ascii) :
  is_literal ds = true -> is_unit u = true ->
  parse_schedule ("@every " ++ ds ++ String u rest) =
  (value <- int ds ;;
   Ok ("Every " ++ str_of_int value ++ " " ++ unit_word u ++ plural value)).
Proof.
  intros Hl Hu. unfold parse_schedule. rewrite (strip_every _ _ _ Hu).
  assert (He : startswith ("@every " ++ ds ++ String u (rstrip rest))
                          "@every" = true) by reflexivity.
  rewrite (every_not_shortcut _ He), He. unfold _parse_every.
  rewrite (re_search_every_literal ds (rstrip rest) u Hl Hu).
  destruct (int ds) as [value|e]; [|reflexivity].
  destruct (is_unit_cases u Hu) as [-> | [-> | ->]]; reflexivity.
Qed.

(** X6. Only the first [<digits><unit>] after [@every] counts: whatever text
    follows it (a second part of a compound duration such as the [30m] of
    [1h30m], or anything else) changes neither the description nor the
    next run, which are those of the first part alone. When the digits are
    at most 4300 these are the sentence of their number, printed in decimal
    without leading zeros, and the reference time plus that many units;
    when they are more, [int] refuses them and both methods raise
    [ValueError], with or without the text that follows. *)
Theorem every_ignores_trailing_text (ds rest : string) (u : ascii)
        (T : datetime) :
  is_literal ds = true -> is_unit u = true ->
  let s := "@every " ++ ds ++ String u rest in
  let n := decimal_value ds in
  let printed := str_of_int n in
  (parse_schedule s = parse_schedule ("@every " ++ ds ++ String u "") /\
   calculate_next_run s T =
   calculate_next_run ("@every " ++ ds ++ String u "") T) /\
  (fits_int ds = true ->
   parse_schedule s =
   Ok ("Every " ++ printed ++ " " ++ unit_word u ++ plural n) /\
   is_literal printed = true /\ decimal_value printed = n /\
   (startswith printed "0" = true -> printed = "0") /\
   calculate_next_run s T = (d <- unit_timedelta u n ;; datetime_add T d)) /\
  (fits_int ds = false ->
   parse_schedule s = Raise ValueError /\
   calculate_next_run s T = Raise ValueError).
Proof.
  intros Hl Hu s n printed.
  assert (Hd : forall rest',
             parse_schedule ("@every " ++ ds ++ String u rest') =
             (value <- int ds ;;
              Ok ("Every " ++ str_of_int value ++ " " ++ unit_word u
                  ++ plural value))).
  { intros rest'. apply (parse_schedule_every_token ds rest' u Hl Hu). }
  assert (Hn : forall rest',
             calculate_next_run ("@every " ++ ds ++ String u rest') T =
             (value <- int ds ;;
              d <- unit_timedelta u value ;; datetime_add T d)).
  { intros rest'. unfold calculate_next_run.
    rewrite (next_run_every_token ds rest' u T Hl Hu). reflexivity. }
  unfold s. rewrite !Hd, !Hn. split; [split; reflexivity|]. split.
  - intros Hf. rewrite (int_literal ds Hl Hf). cbn [bind]. fold n printed.
    destruct (str_of_int_spec n (decimal_value_nonneg ds Hl))
      as (Hp1 & Hp2 & Hp3).
    repeat split; assumption.
  - intros Hf. rewrite (int_literal_long ds Hl Hf). split; reflexivity.
Qed.

Lemma every_ignores_trailing_text_witness :
  is_literal "1" = true /\ is_unit "h" = true /\ fits_int "1" = true /\
  parse_schedule "@every 1h30m" = Ok "Every 1 hour" /\
  calculate_next_run "@every 1h30m" (datetime_of 2024 3 5 10 20 30) =
  Ok (datetime_of 2024 3 5 11 20 30).
Proof.
  split; [reflexivity|]. split; [reflexivity|]. split; [reflexivity|].
  pose proof (proj1 (proj2 (every_ignores_trailing_text "1" "30m" "h"
                              (datetime_of 2024 3 5 10 20 30)
                              eq_refl eq_refl)) eq_refl)
    as (Hd & _ & _ & _ & Hn).
  split; [exact Hd | exact Hn].
Defined.

(** ** White space around a schedule *)

Lemma lstrip_spaces (a s : string) :
  forall_chars isspace a = true -> lstrip (a ++ s) = lstrip s.
Proof.
  induction a as [|c a IH]; simpl; [reflexivity|]. intros H.
  apply andb_true_iff in H as [Hc Ha]. rewrite Hc. apply IH, Ha.
Qed.

Lemma rstrip_spaces (b : string) :
  forall_chars isspace b = true -> rstrip b = "".
Proof.
  induction b as [|c b IH]; simpl; [reflexivity|]. intros H.
  apply andb_true_iff in H as [Hc Hb]. rewrite (IH Hb), Hc. reflexivity.
Qed.

Lemma rstrip_app_spaces (s b : string) :
  forall_chars isspace b = true -> rstrip (s ++ b) = rstrip s.
Proof.
  intros Hb. induction s as [|c s IH]; simpl.
  - apply rstrip_spaces, Hb.
  - rewrite IH. reflexivity.
Qed.

Lemma lstrip_app (s b : string) :
  lstrip (s ++ b) = if forall_chars isspace s then lstrip b else lstrip s ++ b.
Proof.
  induction s as [|c s IH]; simpl; [reflexivity|].
  destruct (isspace c); simpl; [exact IH | reflexivity].
Qed.

Lemma lstrip_all_spaces (s : string) :
  forall_chars isspace s = true -> lstrip s = "".
Proof.
  induction s as [|c s IH]; simpl; [reflexivity|]. intros H.
  apply andb_true_iff in H as [Hc Hs]. rewrite Hc. apply IH, Hs.
Qed.

Lemma strip_padding (a s b : string) :
  forall_chars isspace a = true -> forall_chars isspace b = true ->
  strip (a ++ s ++ b) = strip s.
Proof.
  intros Ha Hb. unfold strip. rewrite (lstrip_spaces a _ Ha), lstrip_app.
  destruct (forall_chars isspace s) eqn:Hs.
  - rewrite (lstrip_all_spaces b Hb), (lstrip_all_spaces s Hs). reflexivity.
  - apply rstrip_app_spaces, Hb.
Qed.

(** X7. White space before and after a schedule never changes its description
    ([calculate_next_run], which does not trim, has no such property). *)
Theorem describe_ignores_padding (a s b : string) :
  forall_chars isspace a = true -> forall_chars isspace b = true ->
  parse_schedule (a ++ s ++ b) = parse_schedule s.
Proof.
  intros Ha Hb. unfold parse_schedule. rewrite (strip_padding a s b Ha Hb).
  reflexivity.
Qed.

Lemma describe_ignores_padding_witness :
  forall_chars isspace "  " = true /\
  forall_chars isspace (String newline "") = true /\
  parse_schedule ("  " ++ "*/5 * * * *" ++ String newline "") =
  parse_schedule "*/5 * * * *".
Proof.
  split; [reflexivity|]. split; [reflexivity|].
  exact (describe_ignores_padding "  " "*/5 * * * *" (String newline "")
           eq_refl eq_refl).
Defined.

(** ** Where [parse_schedule] returns *)

Lemma int_raises_value_error (x : string) (e : exn) :
  int x = Raise e -> e = ValueError.
Proof.
  unfold int.
  destruct (match skip int_isspace x with
            | String c r =>
                if Ascii.eqb c "+" then (1, r)
                else if Ascii.eqb c "-" then (-1, r)
                else (1, skip int_isspace x)
            | EmptyString => (1, skip int_isspace x)
            end) as [sign s2].
  destruct s2 as [|c r]; [congruence|].
  destruct (isdecimal c); [|congruence].
  destruct (int_digits (digit_value c) r) as [v rest].
  destruct (forall_chars int_isspace rest); [|congruence].
  destruct (digit_count x <=? INT_MAX_STR_DIGITS)%nat; congruence.
Qed.

(** [_parse_every] returns, or the digits of the first token are more than
    [int] accepts. *)
Lemma _parse_every_outcome (s : string) :
  returns (_parse_every s) \/
  (_parse_every s = Raise ValueError /\
   exists ds u, first_token s ds u /\ fits_int ds = false).
Proof.
  unfold _parse_every.
  destruct (re_search_every s) as [[ds us]|] eqn:Hr;
    [|left; eexists; reflexivity].
  pose proof Hr as Hr'.
  apply re_search_every_some in Hr' as (pre & r & _ & Hm & _).
  destruct (match_every_groups _ _ _ Hm)
    as (u & ws & post & -> & _ & _ & _ & Hne & Hall & Hu).
  assert (Hl : is_literal ds = true) by (apply is_literal_spec; auto).
  rewrite (int_literal_cases ds Hl). destruct (fits_int ds) eqn:Hf.
  - left. cbn [bind].
    destruct (is_unit_cases u Hu) as [-> | [-> | ->]]; eexists; reflexivity.
  - right. split; [reflexivity|]. exists ds, u.
    split; [apply re_search_every_first, Hr | exact Hf].
Qed.

Lemma _parse_every_long (s ds : string) (u : ascii) :
  first_token s ds u -> fits_int ds = false ->
  _parse_every s = Raise ValueError.
Proof.
  intros Ht Hf. destruct (first_token_literal _ _ _ Ht) as [Hl _].
  apply re_search_every_first in Ht. unfold _parse_every.
  rewrite Ht, (int_literal_long ds Hl Hf). reflexivity.
Qed.

Lemma step_text (f : string) :
  startswith f "*/" = true -> f = "*/" ++ slice_from 2 f.
Proof. intros H. apply startswith_inv in H as [r ->]. reflexivity. Qed.

(** [_describe_standard_cron] returns, or one of its three step rules met
    a step that [int] refuses. *)
Lemma _describe_standard_cron_outcome (s : string) :
  returns (_describe_standard_cron s) \/
  (_describe_standard_cron s = Raise ValueError /\
   exists mi h d mo w x,
     split s = [mi; h; d; mo; w] /\ int x = Raise ValueError /\
     (mi = "*/" ++ x \/ (mi = "0" /\ h = "*/" ++ x)
      \/ (mi = "0" /\ h = "0" /\ d = "*/" ++ x))).
Proof.
  unfold _describe_standard_cron.
  destruct (split s) as [|mi [|h [|d [|mo [|w [|f l]]]]]];
    try (left; eexists; reflexivity).
  destruct ((mi =? "*")%string && (h =? "*")%string);
    [left; eexists; reflexivity|].
  destruct (startswith mi "*/") eqn:Hmi.
  { destruct (int (slice_from 2 mi)) as [n|e] eqn:Hi;
      [left; eexists; reflexivity|].
    right. pose proof (int_raises_value_error _ _ Hi) as He. subst e.
    cbn [bind].
    split; [reflexivity|].
    exists mi, h, d, mo, w, (slice_from 2 mi).
    split; [reflexivity|]. split; [exact Hi|]. left. apply step_text, Hmi. }
  destruct (startswith h "*/" && (mi =? "0")%string) eqn:Hh.
  { apply andb_true_iff in Hh as [Hh Hm0]. apply String.eqb_eq in Hm0.
    destruct (int (slice_from 2 h)) as [n|e] eqn:Hi;
      [left; eexists; reflexivity|].
    right. pose proof (int_raises_value_error _ _ Hi) as He. subst e.
    cbn [bind].
    split; [reflexivity|].
    exists mi, h, d, mo, w, (slice_from 2 h).
    split; [reflexivity|]. split; [exact Hi|].
    right. left. split; [exact Hm0 | apply step_text, Hh]. }
  destruct (startswith d "*/" && (mi =? "0")%string && (h =? "0")%string)
    eqn:Hd.
  { apply andb_true_iff in Hd as [Hd Hh0]. apply andb_true_iff in Hd as [Hd Hm0].
    apply String.eqb_eq in Hm0, Hh0.
    destruct (int (slice_from 2 d)) as [n|e] eqn:Hi;
      [left; eexists; reflexivity|].
    right. pose proof (int_raises_value_error _ _ Hi) as He. subst e.
    cbn [bind].
    split; [reflexivity|].
    exists mi, h, d, mo, w, (slice_from 2 d).
    split; [reflexivity|]. split; [exact Hi|].
    right. right. repeat split; try assumption. apply step_text, Hd. }
  left.
  destruct (negb (mi =? "*")%string && negb (h =? "*")%string
            && (d =? "*")%string && (mo =? "*")%string && (w =? "*")%string);
    [eexists; reflexivity|].
  destruct (negb (mi =? "*")%string && negb (h =? "*")%string
            && negb (d =? "*")%string && (mo =? "*")%string
            && (w =? "*")%string); eexists; reflexivity.
Qed.

(** A step rule applies and [int] refuses the text of the step: the
    description raises. *)
Lemma bad_step_raises (s mi h d mo w x : string) :
  split s = [mi; h; d; mo; w] -> int x = Raise ValueError ->
  mi = "*/" ++ x \/ (mi = "0" /\ h = "*/" ++ x)
  \/ (mi = "0" /\ h = "0" /\ d = "*/" ++ x) ->
  parse_schedule s = Raise ValueError.
Proof.
  intros Hs Hi Hc.
  assert (Hat : startswith mi "@" = false).
  { destruct Hc as [-> | [[-> _] | [-> _]]]; reflexivity. }
  rewrite (plain_minute_is_standard s mi _ Hs Hat).
  pose proof Hs as Hs'. rewrite <- split_strip in Hs'.
  destruct (describe_cascade (strip s) mi h d mo w Hs')
    as (_ & Hb & Hh & Hd & _).
  destruct Hc as [Hm | [[Hm Hx] | (Hm & Hh0 & Hx)]].
  - rewrite (Hb x Hm), Hi. reflexivity.
  - rewrite (Hh x Hm Hx), Hi. reflexivity.
  - rewrite (Hd x Hm Hh0 Hx), Hi. reflexivity.
Qed.

(** X8. [parse_schedule] raises nothing but [ValueError], and it raises in
    exactly two situations. One: the trimmed string starts with [@every]
    and the digits of its first token are more than 4300, which [int]
    refuses. Two: the string has five fields, a step rule applies (a minute
    [*/x], an hour [*/x] with minute [0], or a day [*/x] with minute and
    hour [0]) and [int] refuses the text [x] of the step. In both it does
    raise, and on every other string it returns a description: shortcut
    keys, [@random] forms, [@every] forms with shorter digits or no token
    and any number of fields other than five are always described. *)
Theorem describe_raises_only_on_step (s : string) :
  let long_every :=
    startswith (strip s) "@every" = true /\
    exists ds u, first_token (strip s) ds u /\ fits_int ds = false in
  let bad_step :=
    exists mi h d mo w x,
      split s = [mi; h; d; mo; w] /\ int x = Raise ValueError /\
      (mi = "*/" ++ x \/ (mi = "0" /\ h = "*/" ++ x)
       \/ (mi = "0" /\ h = "0" /\ d = "*/" ++ x)) in
  (forall e, parse_schedule s = Raise e -> e = ValueError) /\
  (parse_schedule s = Raise ValueError <-> long_every \/ bad_step) /\
  (~ (long_every \/ bad_step) -> returns (parse_schedule s)).
Proof.
  intros long_every bad_step.
  assert (Hout : returns (parse_schedule s) \/
                 (parse_schedule s = Raise ValueError /\
                  (long_every \/ bad_step))).
  { unfold long_every, bad_step, parse_schedule.
    destruct (lookup (strip s) SHORTCUTS) as [v|] eqn:Hl.
    { left. apply lookup_in in Hl. simpl in Hl.
      repeat (destruct Hl as [Hl | Hl];
              [inversion Hl; subst; eexists; reflexivity|]).
      contradiction. }
    destruct (startswith (strip s) "@every") eqn:He.
    { destruct (_parse_every_outcome (strip s)) as [H | [H Ht]];
        [left; exact H|].
      right. split; [exact H|]. left. split; [reflexivity | exact Ht]. }
    destruct (startswith (strip s) "@random"); [left; eexists; reflexivity|].
    destruct (_describe_standard_cron_outcome (strip s)) as [H | [H Hx]];
      [left; exact H|].
    right. split; [exact H|]. right. rewrite split_strip in Hx. exact Hx. }
  assert (Hback : long_every \/ bad_step ->
                  parse_schedule s = Raise ValueError).
  { intros [[He (ds & u & Ht & Hf)]
           | (mi & h & d & mo & w & x & Hs & Hi & Hc)].
    - unfold parse_schedule. rewrite (every_not_shortcut _ He), He.
      apply (_parse_every_long _ ds u Ht Hf).
    - apply (bad_step_raises s mi h d mo w x Hs Hi Hc). }
  split; [|split].
  - intros e He. destruct Hout as [[r Hr] | [Hr _]]; congruence.
  - split; [|exact Hback].
    intros He. destruct Hout as [[r Hr] | [_ Hc]]; [congruence | exact Hc].
  - intros Hno. destruct Hout as [Hr | [_ Hc]]; [exact Hr | contradiction].
Qed.

(** ** The sentences of the step, daily and monthly rules *)

(** X9. A step [*/N] with [N] a literal integer of at most 4300 digits (a
    longer one is refused by [int]) is described with the text [N] as
    written (so [*/05] gives [Every 05 minutes]) and a plural [s] unless
    the number is 1: in the minute field for minutes, in the hour field
    with minute [0] for hours, in the day field with minute and hour [0]
    for days. *)
Theorem step_rules_described (s mi h d mo w N : string) :
  split s = [mi; h; d; mo; w] -> is_literal N = true ->
  fits_int N = true ->
  let sentence (unit : string) :=
    Ok ("Every " ++ N ++ " " ++ unit ++ plural (decimal_value N)) in
  (mi = "*/" ++ N -> parse_schedule s = sentence "minute") /\
  (mi = "0" -> h = "*/" ++ N -> parse_schedule s = sentence "hour") /\
  (mi = "0" -> h = "0" -> d = "*/" ++ N -> parse_schedule s = sentence "day").
Proof.
  intros Hs HN HfN sentence.
  assert (Hstd : startswith mi "@" = false ->
                 parse_schedule s = _describe_standard_cron (strip s)).
  { intros Hat. apply (plain_minute_is_standard s mi _ Hs Hat). }
  pose proof Hs as Hs'. rewrite <- split_strip in Hs'.
  destruct (describe_cascade (strip s) mi h d mo w Hs')
    as (_ & Hb & Hc & Hd & _).
  unfold sentence. split; [|split].
  - intros ->. rewrite (Hstd eq_refl), (Hb N eq_refl), (int_literal N HN HfN).
    reflexivity.
  - intros -> ->. rewrite (Hstd eq_refl), (Hc N eq_refl eq_refl).
    rewrite (int_literal N HN HfN). reflexivity.
  - intros -> -> ->. rewrite (Hstd eq_refl), (Hd N eq_refl eq_refl eq_refl).
    rewrite (int_literal N HN HfN). reflexivity.
Qed.

Lemma step_rules_described_witness :
  split "*/05 * * * *" = ["*/05"; "*"; "*"; "*"; "*"] /\
  is_literal "05" = true /\ fits_int "05" = true /\
  parse_schedule "*/05 * * * *" = Ok "Every 05 minutes".
Proof.
  split; [reflexivity|]. split; [reflexivity|]. split; [reflexivity|].
  exact (proj1 (step_rules_described "*/05 * * * *" "*/05" "*" "*" "*" "*"
                  "05" eq_refl eq_refl eq_refl) eq_refl).
Defined.

Lemma zfill_literal (x : string) :
  is_literal x = true ->
  zfill 2 x = if (String.length x =? 1)%nat then "0" ++ x else x.
Proof.
  intros Hl. apply is_literal_spec in Hl as [Hne Hall].
  destruct x as [|c [|c' r]]; [discriminate| |].
  - cbn [forall_chars] in Hall. apply andb_true_iff in Hall as [Hc _].
    unfold zfill. cbn [String.length Nat.sub repeat String.concat].
    rewrite (decimal_neq c "+" Hc eq_refl), (decimal_neq c "-" Hc eq_refl).
    reflexivity.
  - cbn [forall_chars] in Hall. apply andb_true_iff in Hall as [Hc _].
    unfold zfill. cbn [String.length Nat.sub repeat String.concat].
    rewrite (decimal_neq c "+" Hc eq_refl), (decimal_neq c "-" Hc eq_refl).
    reflexivity.
Qed.

(** X10. A schedule with a literal minute and hour and [*] for month and
    weekday is described as [Daily at HH:MM] when the day is [*] and as
    [Monthly on day D at HH:MM] when the day is a literal [D]; the hour and
    the minute are printed as written, with a zero in front when they are a
    single digit. Their ranges are not checked. *)
Theorem daily_and_monthly_described (s mi h d : string) :
  split s = [mi; h; d; "*"; "*"] ->
  is_literal mi = true -> is_literal h = true ->
  let pad (x : string) :=
    if (String.length x =? 1)%nat then "0" ++ x else x in
  (d = "*" ->
   parse_schedule s = Ok ("Daily at " ++ pad h ++ ":" ++ pad mi)) /\
  (is_literal d = true ->
   parse_schedule s =
   Ok ("Monthly on day " ++ d ++ " at " ++ pad h ++ ":" ++ pad mi)).
Proof.
  intros Hs Hmi Hh pad.
  pose proof (literal_is_concrete mi Hmi) as Hc.
  apply is_concrete_spec in Hc as (Hmstar & Hmstep & Hmat).
  pose proof (literal_is_concrete h Hh) as Hc.
  apply is_concrete_spec in Hc as (Hhstar & Hhstep & _).
  rewrite (plain_minute_is_standard s mi _ Hs Hmat).
  pose proof Hs as Hs'. rewrite <- split_strip in Hs'.
  destruct (describe_cascade (strip s) mi h d "*" "*" Hs')
    as (_ & _ & _ & _ & He).
  rewrite Hhstep in He.
  destruct (He Hmstep eq_refl Hmstar Hhstar eq_refl eq_refl) as [Hdaily Hmonthly].
  unfold pad. rewrite <- (zfill_literal h Hh), <- (zfill_literal mi Hmi).
  split.
  - intros Hd. apply Hdaily, Hd.
  - intros Hd. pose proof (literal_is_concrete d Hd) as Hc.
    apply is_concrete_spec in Hc as (Hdstar & Hdstep & _).
    apply Hmonthly; [exact Hdstar|]. rewrite Hdstep. reflexivity.
Qed.

Lemma daily_and_monthly_described_witness :
  split "30 14 15 * *" = ["30"; "14"; "15"; "*"; "*"] /\
  is_literal "30" = true /\ is_literal "14" = true /\
  is_literal "15" = true /\
  parse_schedule "30 14 15 * *" = Ok "Monthly on day 15 at 14:30".
Proof.
  split; [reflexivity|]. split; [reflexivity|]. split; [reflexivity|].
  split; [reflexivity|].
  exact (proj2 (daily_and_monthly_described "30 14 15 * *" "30" "14" "15"
                  eq_refl eq_refl eq_refl) eq_refl).
Defined.

(* ================================================================== *)
(** * Properties of [db_logger.py] *)

Lemma length_take (n : nat) (s : string) :
  String.length (take n s) = Nat.min n (String.length s).
Proof.
  revert s. induction n as [|n IH]; intros [|c s]; simpl; auto.
Qed.

Lemma take_app (n : nat) (a b : string) :
  (n <= String.length a)%nat -> take n (a ++ b) = take n a.
Proof.
  revert a. induction n as [|n IH]; intros [|c a] H; simpl in *;
    try reflexivity; try lia.
  rewrite IH by lia. reflexivity.
Qed.

Lemma take_take (n : nat) (s : string) : take n (take n s) = take n s.
Proof.
  revert s. induction n as [|n IH]; intros [|c s]; simpl; auto.
  rewrite IH. reflexivity.
Qed.

Lemma take_all (n : nat) (s : string) :
  (String.length s <= n)%nat -> take n s = s.
Proof.
  revert s. induction n as [|n IH]; intros [|c s] H; simpl in *;
    try reflexivity; try lia.
  rewrite IH by lia. reflexivity.
Qed.

Lemma len_app (a b : string) : len (a ++ b) = len a + len b.
Proof. unfold len. rewrite length_app. lia. Qed.

Lemma len_notice (n : Z) :
  len (truncation_notice n) = 30 + len (str_of_int n).
Proof.
  unfold truncation_notice.
  change (String newline "... (truncated, " ++ str_of_int n ++ " bytes total)")
    with (String newline "... (truncated, "
          ++ (str_of_int n ++ " bytes total)")).
  rewrite !len_app.
  change (len (String newline "... (truncated, ")) with 17.
  change (len " bytes total)") with 13. lia.
Qed.

Lemma app_inv_tail (a b t : string) : a ++ t = b ++ t -> a = b.
Proof.
  intros H. assert (Hl : String.length a = String.length b).
  { apply (f_equal String.length) in H. rewrite !length_app in H. lia. }
  apply (app_inv_length _ _ _ _ H Hl).
Qed.

Lemma str_of_int_inj (a b : Z) :
  0 <= a -> 0 <= b -> str_of_int a = str_of_int b -> a = b.
Proof.
  intros Ha Hb H. unfold str_of_int in H.
  destruct (Z.ltb_spec a 0); [lia|]. destruct (Z.ltb_spec b 0); [lia|].
  apply (f_equal decimal_value) in H.
  rewrite (proj2 (decimal_spec (Z.abs_N a))) in H.
  rewrite (proj2 (decimal_spec (Z.abs_N b))) in H. lia.
Qed.

(** X13. An output that fits in [max_size] characters is kept as it is. A longer
    one is cut to its first [max_size] characters and a notice with the
    length of the whole output is put after them: the stored preview is
    then longer than [max_size], by the 30 characters of the notice and the
    digits of the length. In both cases the first [max_size] characters of
    the preview are those of the output. *)
Theorem truncate_output_preview (content : string) (max_size : Z) :
  0 <= max_size ->
  slice_to max_size (truncate_output content max_size)
  = slice_to max_size content /\
  (len content <= max_size -> truncate_output content max_size = content) /\
  (max_size < len content ->
   truncate_output content max_size
   = slice_to max_size content ++ truncation_notice (len content) /\
   len (truncate_output content max_size)
   = max_size + 30 + len (str_of_int (len content))) /\
  len (truncate_output content max_size)
  <= max_size + 30 + len (str_of_int (len content)).
Proof.
  intros Hm. unfold truncate_output, slice_to.
  destruct (Z.ltb_spec max_size 0) as [Hneg | _]; [lia|].
  assert (Hlen0 : 0 <= len (str_of_int (len content))) by (unfold len; lia).
  destruct (Z.ltb_spec max_size (len content)) as [Hlong | Hshort].
  - assert (Hn : (Z.to_nat max_size <= String.length content)%nat)
      by (unfold len in Hlong; lia).
    assert (Htake : len (take (Z.to_nat max_size) content) = max_size).
    { unfold len. rewrite length_take. lia. }
    assert (Hl : len (take (Z.to_nat max_size) content
                      ++ truncation_notice (len content))
                 = max_size + 30 + len (str_of_int (len content))).
    { rewrite len_app, len_notice, Htake. lia. }
    split; [|split; [|split]].
    + rewrite take_app by (rewrite length_take; lia). apply take_take.
    + intros H. lia.
    + intros _. split; [reflexivity | exact Hl].
    + rewrite Hl. lia.
  - split; [reflexivity|]. split; [reflexivity|]. split; [lia|]. lia.
Qed.

Lemma truncate_output_preview_witness :
  0 <= 3 /\
  truncate_output "abcdef" 3 =
  "abc" ++ String newline "... (truncated, 6 bytes total)" /\
  len (truncate_output "abcdef" 3) = 34.
Proof.
  assert (H03 : 0 <= 3) by lia.
  assert (H36 : 3 < len "abcdef") by reflexivity.
  split; [exact H03|].
  destruct (truncate_output_preview "abcdef" 3 H03) as (_ & _ & Hcut & _).
  exact (Hcut H36).
Defined.

(** X14. The preview keeps the size of what it cut: two outputs that are both
    longer than [max_size] and get the same preview have the same length. *)
Theorem truncate_output_keeps_size (c1 c2 : string) (max_size : Z) :
  0 <= max_size -> max_size < len c1 -> max_size < len c2 ->
  truncate_output c1 max_size = truncate_output c2 max_size ->
  len c1 = len c2 /\ slice_to max_size c1 = slice_to max_size c2.
Proof.
  intros Hm H1 H2 Heq. unfold truncate_output in Heq.
  apply Z.ltb_lt in H1, H2. rewrite H1, H2 in Heq.
  apply Z.ltb_lt in H1, H2.
  unfold slice_to in *. destruct (Z.ltb_spec max_size 0); [lia|].
  assert (Hl : String.length (take (Z.to_nat max_size) c1)
               = String.length (take (Z.to_nat max_size) c2)).
  { rewrite !length_take. unfold len in *. lia. }
  destruct (app_inv_length _ _ _ _ Heq Hl) as [Hpre Hnot].
  split; [|exact Hpre].
  unfold truncation_notice in Hnot. simpl in Hnot.
  inversion Hnot as [Hn]. apply app_inv_tail in Hn.
  apply str_of_int_inj in Hn; [exact Hn | unfold len; lia | unfold len; lia].
Qed.

Lemma truncate_output_keeps_size_witness :
  0 <= 3 /\ 3 < len "abcdef" /\ 3 < len "abcxyz" /\
  truncate_output "abcdef" 3 = truncate_output "abcxyz" 3 /\
  len "abcdef" = len "abcxyz".
Proof.
  assert (H03 : 0 <= 3) by lia.
  assert (H1 : 3 < len "abcdef") by reflexivity.
  assert (H2 : 3 < len "abcxyz") by reflexivity.
  assert (He : truncate_output "abcdef" 3 = truncate_output "abcxyz" 3)
    by reflexivity.
  split; [exact H03|]. split; [exact H1|]. split; [exact H2|].
  split; [exact He|].
  exact (proj1 (truncate_output_keeps_size "abcdef" "abcxyz" 3 H03 H1 H2 He)).
Defined.

(* ================================================================== *)
(** * Properties of [app.py] *)

Lemma name_char_not_newline : is_name_char newline = false.
Proof. reflexivity. Qed.

Lemma name_char_plain (c : ascii) :
  is_name_char c = true ->
  c <> "/"%char /\ c <> "."%char /\ c <> "\"%char /\ isspace c = false.
Proof.
  destruct c as [[] [] [] [] [] [] [] []]; vm_compute; intros H;
    first [discriminate H | repeat split; discriminate].
Qed.

(** The names the pattern accepts: one or more characters of the class,
    and after them nothing or one newline. *)
Lemma match_job_name_spec (s : string) :
  match_job_name s = true <->
  exists name,
    is_empty name = false /\ forall_chars is_name_char name = true /\
    (s = name \/ s = name ++ String newline "").
Proof.
  unfold match_job_name. split.
  - destruct (span is_name_char s) as [run rest] eqn:Hsp.
    apply span_spec in Hsp as (-> & Hall & _). intros H.
    apply andb_true_iff in H as [Hne H]. apply negb_true_iff in Hne.
    exists run. split; [exact Hne|]. split; [exact Hall|].
    apply orb_true_iff in H as [H | H].
    + apply is_empty_true in H. subst rest. left. apply app_nil_r.
    + apply String.eqb_eq in H. subst rest. right. reflexivity.
  - intros (name & Hne & Hall & [-> | ->]).
    + rewrite <- (app_nil_r name) at 1.
      rewrite (span_app is_name_char name "" Hall I), Hne. reflexivity.
    + rewrite (span_app is_name_char name (String newline "") Hall)
        by exact name_char_not_newline.
      rewrite Hne. reflexivity.
Qed.

(** X15. [validate_job_name] returns the name it is given, unchanged, when the
    name is one or more letters, digits, underscores and hyphens, and also
    when such a name is followed by one newline at its very end ([$]
    matches in front of a final newline); on every other string, the empty
    one included, it raises [ValueError]. *)
Theorem validate_job_name_accepts (s : string) :
  (validate_job_name s = Ok s \/ validate_job_name s = Raise ValueError) /\
  (validate_job_name s = Ok s <->
   exists name,
     is_empty name = false /\ forall_chars is_name_char name = true /\
     (s = name \/ s = name ++ String newline "")).
Proof.
  unfold validate_job_name. split.
  - destruct (match_job_name s); auto.
  - rewrite <- match_job_name_spec.
    destruct (match_job_name s); split; intros H;
      first [reflexivity | discriminate].
Qed.

Lemma forall_chars_impl (p q : ascii -> bool) (s : string) :
  (forall c, p c = true -> q c = true) ->
  forall_chars p s = true -> forall_chars q s = true.
Proof.
  intros Hpq. induction s as [|c s IH]; simpl; [reflexivity|]. intros H.
  apply andb_true_iff in H as [Hc Hs]. rewrite (Hpq c Hc), (IH Hs).
  reflexivity.
Qed.

(** X16. A name that [validate_job_name] lets through has no slash, no
    backslash and no dot in it, so the script path built from it names a
    file directly inside the jobs directory: the part after
    [/opt/crontab/jobs/] has no slash and its only dot is that of [.sh]. *)
Theorem validated_name_stays_in_jobs_dir (s r : string) :
  validate_job_name s = Ok r ->
  let plain (c : ascii) :=
    negb (Ascii.eqb c "/") && negb (Ascii.eqb c "\") && negb (Ascii.eqb c ".")
  in
  r = s /\ forall_chars plain r = true /\
  script_path r = "/opt/crontab/jobs/" ++ (r ++ ".sh") /\
  forall_chars (fun c => negb (Ascii.eqb c "/")) (r ++ ".sh") = true.
Proof.
  intros H plain. unfold validate_job_name in H.
  destruct (match_job_name s) eqn:Hm; [|discriminate].
  inversion H; subst r; clear H.
  apply match_job_name_spec in Hm as (name & _ & Hall & Hs).
  assert (Hplain : forall c, is_name_char c = true -> plain c = true).
  { intros c Hc. destruct (name_char_plain c Hc) as (H1 & H2 & H3 & _).
    unfold plain. apply Ascii.eqb_neq in H1, H2, H3.
    rewrite H1, H2, H3. reflexivity. }
  assert (Hname : forall_chars plain name = true)
    by (apply (forall_chars_impl _ _ _ Hplain Hall)).
  assert (Hs' : forall_chars plain s = true).
  { destruct Hs as [-> | ->]; [exact Hname|].
    rewrite forall_chars_app, Hname. reflexivity. }
  split; [reflexivity|]. split; [exact Hs'|]. split; [reflexivity|].
  rewrite forall_chars_app. apply andb_true_iff. split; [|reflexivity].
  apply (forall_chars_impl plain); [|exact Hs'].
  intros c Hc. unfold plain in Hc.
  apply andb_true_iff in Hc as [Hc _]. apply andb_true_iff in Hc as [Hc _].
  exact Hc.
Qed.

Lemma validated_name_stays_in_jobs_dir_witness :
  validate_job_name "nightly-backup_2" = Ok "nightly-backup_2" /\
  script_path "nightly-backup_2" = "/opt/crontab/jobs/nightly-backup_2.sh".
Proof.
  split; [reflexivity|].
  destruct (validated_name_stays_in_jobs_dir
              "nightly-backup_2" "nightly-backup_2" eq_refl)
    as (_ & _ & Hp & _).
  exact Hp.
Defined.

(** X17. The limit [api_get_executions] asks the query for is between 1 and
    1000 whatever the request says: 50 when the request has no [limit] or
    one that [int] does not read, and otherwise the number given, raised
    to 1 or lowered to 1000 when it is outside. *)
Theorem executions_limit_clamped (value : option string) :
  1 <= executions_limit value <= 1000 /\
  (value = None -> executions_limit value = 50) /\
  (forall v e, value = Some v -> int v = Raise e ->
               executions_limit value = 50) /\
  (forall v n, value = Some v -> int v = Ok n ->
               executions_limit value =
               if n <? 1 then 1 else if 1000 <? n then 1000 else n).
Proof.
  unfold executions_limit, args_get_int. split; [lia|].
  split; [intros ->; reflexivity|]. split.
  - intros v e -> ->. reflexivity.
  - intros v n -> ->.
    destruct (Z.ltb_spec n 1); [lia|]. destruct (Z.ltb_spec 1000 n); lia.
Qed.

(* ================================================================== *)
(** * The other outcomes of [parse_schedule] *)

(** X11. A string that, once trimmed, does not start with the at sign and has
    not exactly five fields is reported as invalid, and the report echoes
    the trimmed string. The empty string and a string of white space are
    such strings: their report ends after the colon and the blank. *)
Theorem describe_wrong_field_count (s : string) :
  List.length (split s) <> 5%nat -> startswith (strip s) "@" = false ->
  parse_schedule s = Ok ("Invalid cron syntax: " ++ strip s).
Proof.
  intros Hn Hat. unfold parse_schedule.
  rewrite (not_at_not_shortcut _ Hat).
  assert (He : startswith (strip s) "@every" = false).
  { destruct (startswith (strip s) "@every") eqn:H; [|reflexivity].
    apply startswith_inv in H as [r Hr]. rewrite Hr in Hat. discriminate. }
  assert (Hr : startswith (strip s) "@random" = false).
  { destruct (startswith (strip s) "@random") eqn:H; [|reflexivity].
    apply startswith_inv in H as [r Hr]. rewrite Hr in Hat. discriminate. }
  rewrite He, Hr. apply describe_invalid. rewrite split_strip. exact Hn.
Qed.

Lemma describe_wrong_field_count_witness :
  List.length (split "  ") <> 5%nat /\ startswith (strip "  ") "@" = false /\
  parse_schedule "  " = Ok "Invalid cron syntax: ".
Proof.
  assert (Hn : List.length (split "  ") <> 5%nat) by discriminate.
  split; [exact Hn|]. split; [reflexivity|].
  exact (describe_wrong_field_count "  " Hn eq_refl).
Defined.

(** X12. Every string that starts with [@random] once trimmed gets the one
    sentence for random schedules, whatever follows the word, a complete
    schedule of five fields included. *)
Theorem random_described (s : string) :
  startswith (strip s) "@random" = true ->
  parse_schedule s = Ok "Random (varies per container start)".
Proof.
  intros H. unfold parse_schedule.
  destruct (random_unmodelled _ H) as (He & Hl & _).
  rewrite Hl, He, H. reflexivity.
Qed.

Lemma random_described_witness :
  startswith (strip " @random */5 * * * *") "@random" = true /\
  parse_schedule " @random */5 * * * *"
  = Ok "Random (varies per container start)".
Proof.
  split; [reflexivity|].
  exact (random_described " @random */5 * * * *" eq_refl).
Defined.
